(** * GMC (Geometric Multimodal Contrastive learning): a shallow embedding

    Embedding of [src/multivae/models/gmc/gmc_model.py] (class [GMC]).

    Conventions.
    - torch floating-point tensors are modelled over the exact reals [R];
      a 1-D tensor is a [list R], a 2-D tensor a list of rows.  What is
      proved of a loss is its shape, its errors and how it is put together
      from the similarities; nothing is proved of its sign, of its being
      finite or of its being zero, which in floating point depend on
      overflow, on the absorption of small terms and on the temperature
      not being zero.
    - [self.networks] is a [torch.nn.ModuleDict]: an assignment to one of
      its keys goes through [add_module] and its tests of the name.  Which
      names are attributes of a [ModuleDict] is torch's matter: it is the
      parameter [has_attribute] of construction.
    - A Python [dict] is an association list in insertion order.
    - A Python exception is a value of [exn]; a computation that may raise
      returns [res A].  Errors are identified by the statement that raises
      them: the class and message of the [raise] / [assert] in the source, or
      [Propagated] for whatever an externally supplied encoder raises.
    - Methods of [GMC] run in a state monad over the object and the log of
      calls made to the sub-networks. *)

From Stdlib Require Import Ascii String ZArith DecimalString Reals Lra Lia.
From Stdlib Require Import Bool Arith List Permutation.
Import ListNotations.

Local Open Scope string_scope.
Local Open Scope list_scope.
Local Open Scope nat_scope.

(** ** Exceptions and fallible results *)

Inductive exn : Type :=
| AssertionError (msg : string)
| AttributeError (msg : string)
| KeyError (key : string)
| TypeError (msg : string)
| RuntimeError
| Propagated (what : string).

Definition res (A : Type) : Type := (exn + A)%type.

Abbreviation Ok := (@inr exn _).
Abbreviation Raise := (@inl exn _).

Definition rbind {A B : Type} (c : res A) (k : A -> res B) : res B :=
  match c with
  | inl e => inl e
  | inr a => k a
  end.

Notation "'let*' x ':=' c 'in' k" := (rbind c (fun x => k))
  (at level 10, x name, c at level 100, k at level 200).

(** ** Python dictionaries (insertion ordered) *)

Definition dict (V : Type) : Type := list (string * V).

Definition dict_keys {V : Type} (d : dict V) : list string := map fst d.

Fixpoint dict_get {V : Type} (d : dict V) (k : string) : option V :=
  match d with
  | [] => None
  | (k', v) :: d' => if String.eqb k k' then Some v else dict_get d' k
  end.

Definition dict_mem {V : Type} (d : dict V) (k : string) : bool :=
  match dict_get d k with
  | Some _ => true
  | None => false
  end.

(** [d[k] = v]: overwrite in place, or append a new key at the end. *)
Fixpoint dict_set {V : Type} (d : dict V) (k : string) (v : V) : dict V :=
  match d with
  | [] => [(k, v)]
  | (k', v') :: d' =>
      if String.eqb k k' then (k', v) :: d' else (k', v') :: dict_set d' k v
  end.

(** [d[k]] as an expression: [KeyError] on a missing key. *)
Definition dict_index {V : Type} (d : dict V) (k : string) : res V :=
  match dict_get d k with
  | Some v => Ok v
  | None => Raise (KeyError k)
  end.

(** A value is a dictionary when no key occurs twice. *)
Definition dict_wf {V : Type} (d : dict V) : Prop := NoDup (dict_keys d).

(** ** Tensors *)

Abbreviation vector := (list R).
Abbreviation matrix := (list (list R)).

Inductive Tensor : Type :=
| Scalar (x : R)
| Vec (v : vector)
| Mat (m : matrix).

Definition ndim (t : Tensor) : nat :=
  match t with
  | Scalar _ => 0
  | Vec _ => 1
  | Mat _ => 2
  end.

(** [m] has shape [(B, D)]. *)
Definition has_shape (B D : nat) (m : matrix) : Prop :=
  length m = B /\ Forall (fun r => length r = D) m.

Definition zip_with {A B C : Type} (f : A -> B -> C)
  (l : list A) (l' : list B) : list C :=
  map (fun p => f (fst p) (snd p)) (combine l l').

Definition sum_list (v : vector) : R := fold_right Rplus 0%R v.

Definition dot (u v : vector) : R := sum_list (zip_with Rmult u v).

(** Deleting position [i] of a list. *)
Definition remove_nth {A : Type} (i : nat) (l : list A) : list A :=
  firstn i l ++ skipn (S i) l.

(** *** torch primitives used by [infonce] *)

Definition same_width {A : Type} (m : list (list A)) : bool :=
  match m with
  | [] => true
  | r :: rs => forallb (fun r' => length r' =? length r) rs
  end.

(** [torch.cat([a, b], dim=0)]: the row widths must agree. *)
Definition torch_cat (a b : matrix) : res matrix :=
  if same_width (a ++ b) then Ok (a ++ b) else Raise RuntimeError.

(** [torch.mm(a, b.t().contiguous())]: entry [(i, j)] is [dot a[i] b[j]]. *)
Definition torch_mm_t (a b : matrix) : matrix :=
  map (fun r => map (dot r) b) a.

(** [torch.exp(m / temperature)] *)
Definition exp_div (temperature : R) (m : matrix) : matrix :=
  map (map (fun x => exp (x / temperature))) m.

(** [torch.ones_like] and [torch.eye]; the entries 0 and 1 are exact. *)
Definition ones_like {A : Type} (m : list (list A)) : list (list Z) :=
  map (map (fun _ => 1%Z)) m.

Definition eye (n : nat) : list (list Z) :=
  map (fun i => map (fun j => if i =? j then 1%Z else 0%Z) (seq 0 n)) (seq 0 n).

Fixpoint same_shape {A B : Type} (a : list (list A)) (b : list (list B)) : bool :=
  match a, b with
  | [], [] => true
  | r :: a', s :: b' => (length r =? length s) && same_shape a' b'
  | _, _ => false
  end.

(** Elementwise difference; operands of different shapes make a later step of
    the loop body fail at the latest, so the error is raised here. *)
Definition tensor_sub (a b : list (list Z)) : res (list (list Z)) :=
  if same_shape a b then Ok (zip_with (zip_with Z.sub) a b)
  else Raise RuntimeError.

(** [.bool()] *)
Definition to_bool (m : list (list Z)) : list (list bool) :=
  map (map (fun z => negb (z =? 0)%Z)) m.

(** [m.masked_select(mask)]: the selected entries in row-major order. *)
Definition masked_select (m : matrix) (mask : list (list bool)) : res vector :=
  if same_shape m mask
  then Ok (map fst (filter snd (combine (concat m) (concat mask))))
  else Raise RuntimeError.

Fixpoint take_rows (rows cols : nat) (v : vector) : matrix :=
  match rows with
  | 0 => []
  | S rows' => firstn cols v :: take_rows rows' cols (skipn cols v)
  end.

(** [v.view(rows, -1)]: the number of columns is inferred; it is ambiguous
    for [rows = 0] and must divide the number of elements. *)
Definition view_rows (rows : nat) (v : vector) : res matrix :=
  if rows =? 0 then Raise RuntimeError
  else if (length v mod rows) =? 0
       then Ok (take_rows rows (length v / rows) v)
       else Raise RuntimeError.

(** [torch.sum(a * b, dim=-1)] *)
Definition mul_mat (a b : matrix) : matrix := zip_with (zip_with Rmult) a b.
Definition sum_dim1 (m : matrix) : vector := map sum_list m.

(** The accumulator [joint_mod_loss_sum]: the Python integer it starts as, or
    the 1-D tensor it becomes after the first [+=]. *)
Inductive pyval : Type :=
| PyInt (n : Z)
| PyVec (v : vector).

(** [acc += v] for a 1-D tensor [v]. *)
Definition iadd (acc : pyval) (v : vector) : res pyval :=
  match acc with
  | PyInt n => Ok (PyVec (map (fun x => (IZR n + x)%R) v))
  | PyVec a =>
      if length a =? length v then Ok (PyVec (zip_with Rplus a v))
      else Raise RuntimeError
  end.

(** [torch.mean]: a Python integer is not a tensor; the mean of a 1-D tensor
    is a 0-dimensional tensor. *)
Definition torch_mean (x : pyval) : res Tensor :=
  match x with
  | PyInt _ => Raise (TypeError "mean(): argument 'input' must be Tensor, not int")
  | PyVec v => Ok (Scalar (sum_list v / INR (length v)))
  end.

(** ** [GMC.infonce] *)

(** Lines 105-111: the exponentiated similarity matrix of the concatenation. *)
Definition sim_matrix (temperature : R) (out : matrix) : matrix :=
  exp_div temperature (torch_mm_t out out).

(** Lines 113-116. *)
Definition mask_joint_mod (batch_size : nat) (sim : matrix) :
  res (list (list bool)) :=
  let* d := tensor_sub (ones_like sim) (eye (2 * batch_size)) in
  Ok (to_bool d).

(** Lines 105-120: the similarity matrix with its diagonal removed. *)
Definition masked_sim_matrix (temperature : R) (joint_z z : matrix) :
  res matrix :=
  let batch_size := length joint_z in
  let* out_joint_mod := torch_cat joint_z z in
  let sim := sim_matrix temperature out_joint_mod in
  let* mask := mask_joint_mod batch_size sim in
  let* selected := masked_select sim mask in
  view_rows (2 * batch_size) selected.

(** Lines 123-130. *)
Definition pos_sim (temperature : R) (joint_z z : matrix) : vector :=
  let p := map (fun x => exp (x / temperature)) (sum_dim1 (mul_mat joint_z z)) in
  p ++ p.

(** Lines 105-133: the body of the loop, [loss_joint_mod]. *)
Definition loss_joint_mod (temperature : R) (joint_z z : matrix) : res vector :=
  let* sim := masked_sim_matrix temperature joint_z z in
  let pos := pos_sim temperature joint_z z in
  Ok (zip_with (fun p s => (- ln (p / s))%R) pos (sum_dim1 sim)).

Fixpoint infonce_loop (temperature : R) (modalities_z : dict matrix)
  (joint_z : matrix) (mods : list string) (joint_mod_loss_sum : pyval) :
  res pyval :=
  match mods with
  | [] => Ok joint_mod_loss_sum
  | mod_ :: mods' =>
      let* z := dict_index modalities_z mod_ in
      let* loss := loss_joint_mod temperature joint_z z in
      let* acc := iadd joint_mod_loss_sum loss in
      infonce_loop temperature modalities_z joint_z mods' acc
  end.

Definition infonce (temperature : R) (modalities_z : dict matrix)
  (joint_z : matrix) : res Tensor :=
  let* joint_mod_loss_sum :=
    infonce_loop temperature modalities_z joint_z (dict_keys modalities_z)
      (PyInt 0) in
  torch_mean joint_mod_loss_sum.

(** ** Collaborators supplied from outside the module *)

(** What a sub-network is called with: one tensor, or the whole mapping
    [inputs.data]. *)
Inductive pyarg : Type :=
| ArgTensor (x : matrix)
| ArgData (d : dict matrix).

(** An object passed as processor, joint encoder or shared encoder: the
    outcome of the two [isinstance] tests, its [latent_dim] attribute, and
    the [.embedding] of what calling it returns (or what it raises). *)
Module Encoder.
Record t : Type := {
  isinstance_BaseEncoder : bool;
  isinstance_BaseJointEncoder : bool;
  latent_dim : Z;
  forward : pyarg -> string + matrix
}.
End Encoder.

Module GMCConfig.
Record t : Type := {
  n_modalities : Z;
  embedding_dim : Z;
  common_dim : Z;
  temperature : R;
  use_all_singular_values : bool
}.
End GMCConfig.

(** Modelled from the spec: [MultimodalBaseDataset] is not under src/.  By
    section 6 the input object exposes a mapping modality name -> raw tensor
    ([data]) and iteration over the modality names present ([for m in
    inputs]); a raw tensor is kept as one row of features per sample. *)
Record MultimodalBaseDataset : Type := { data : dict matrix }.

Definition iter_inputs (inputs : MultimodalBaseDataset) : list string :=
  dict_keys (data inputs).

(** A [ModelOutput]: its [embedding] field holds a tensor, as in what a
    sub-network returns, or another [ModelOutput]. *)
Inductive ModelOutput : Type :=
| TensorOutput (embedding : matrix)
| NestedOutput (embedding : ModelOutput).

(** ** The [GMC] object and its monad *)

Record GMC : Type := {
  config : GMCConfig.t;
  n_modalities : Z;
  latent_dim : Z;
  common_dim : Z;
  temperature : R;
  use_all_singular_values : bool;
  networks : option (dict Encoder.t);
  joint_encoder : option Encoder.t;
  shared_encoder : option Encoder.t
}.

Inductive callee : Type :=
| Network (m : string)
| JointEncoder
| SharedEncoder.

Inductive Event : Type :=
| Call (c : callee) (arg : pyarg).

Record State : Type := { self : GMC; calls : list Event }.

Definition M (A : Type) : Type := State -> res A * State.

Definition ret {A : Type} (a : A) : M A := fun s => (Ok a, s).

Definition raise {A : Type} (e : exn) : M A := fun s => (Raise e, s).

Definition bind {A B : Type} (c : M A) (k : A -> M B) : M B :=
  fun s =>
    match c s with
    | (inl e, s') => (inl e, s')
    | (inr a, s') => k a s'
    end.

Notation "x <- c ;; k" := (bind c (fun x => k))
  (at level 61, c at next level, right associativity).
Notation "c ;;; k" := (bind c (fun _ => k))
  (at level 61, right associativity).

Definition lift {A : Type} (r : res A) : M A := fun s => (r, s).

Definition get_self : M GMC := fun s => (Ok (self s), s).

Definition put_self (g : GMC) : M unit :=
  fun s => (Ok tt, {| self := g; calls := calls s |}).

(** Reading an attribute that may not have been assigned yet. *)
Definition getattr {A : Type} (name : string) (proj : GMC -> option A) : M A :=
  fun s =>
    match proj (self s) with
    | Some a => (Ok a, s)
    | None =>
        (Raise (AttributeError ("'GMC' object has no attribute '" ++ name ++ "'")),
         s)
    end.

(** [f(arg).embedding]: the call is logged whether or not it raises. *)
Definition call (c : callee) (f : Encoder.t) (arg : pyarg) : M matrix :=
  fun s =>
    (match Encoder.forward f arg with
     | inl what => Raise (Propagated what)
     | inr h => Ok h
     end,
     {| self := self s; calls := calls s ++ [Call c arg] |}).

(** [f(arg)], the [ModelOutput] itself: the call is logged whether or not it
    raises. *)
Definition call_output (c : callee) (f : Encoder.t) (arg : pyarg) :
  M ModelOutput :=
  fun s =>
    (match Encoder.forward f arg with
     | inl what => Raise (Propagated what)
     | inr h => Ok (TensorOutput h)
     end,
     {| self := self s; calls := calls s ++ [Call c arg] |}).

Fixpoint for_each {A : Type} (l : list A) (body : A -> M unit) : M unit :=
  match l with
  | [] => ret tt
  | a :: l' => body a ;;; for_each l' body
  end.

(** Attribute assignment. *)
Definition with_networks (g : GMC) (d : dict Encoder.t) : GMC :=
  {| config := config g; n_modalities := n_modalities g;
     latent_dim := latent_dim g; common_dim := common_dim g;
     temperature := temperature g;
     use_all_singular_values := use_all_singular_values g;
     networks := Some d;
     joint_encoder := joint_encoder g;
     shared_encoder := shared_encoder g |}.

Definition with_joint_encoder (g : GMC) (e : Encoder.t) : GMC :=
  {| config := config g; n_modalities := n_modalities g;
     latent_dim := latent_dim g; common_dim := common_dim g;
     temperature := temperature g;
     use_all_singular_values := use_all_singular_values g;
     networks := networks g;
     joint_encoder := Some e;
     shared_encoder := shared_encoder g |}.

Definition with_shared_encoder (g : GMC) (e : Encoder.t) : GMC :=
  {| config := config g; n_modalities := n_modalities g;
     latent_dim := latent_dim g; common_dim := common_dim g;
     temperature := temperature g;
     use_all_singular_values := use_all_singular_values g;
     networks := networks g;
     joint_encoder := joint_encoder g;
     shared_encoder := Some e |}.

Definition set_attr_networks (d : dict Encoder.t) : M unit :=
  g <- get_self ;; put_self (with_networks g d).

Definition set_attr_joint_encoder (e : Encoder.t) : M unit :=
  g <- get_self ;; put_self (with_joint_encoder g e).

Definition set_attr_shared_encoder (e : Encoder.t) : M unit :=
  g <- get_self ;; put_self (with_shared_encoder g e).

(** Python's [str] on an integer. *)
Definition str (z : Z) : string := NilEmpty.string_of_int (Z.to_int z).

(** *** Error messages of the source *)

Definition msg_count : string :=
  "The number of provided processors doesn't match the number of modalities.".
Definition msg_processor_class : string :=
  "The GMC processors must be instances of pythae BaseEncoder class.".
Definition msg_processor_dim (m : string) (d c : Z) : string :=
  "One of the GMC processor network (modality : " ++ m
  ++ ") doesn't have the same common dim as the model itself. ("
  ++ str d ++ " is different " ++ str c ++ ")".
Definition msg_shared_class : string :=
  "The shared encoder must be an instance of pythae BaseEncoder class".
Definition msg_shared_dim (l d : Z) : string :=
  "The shared encoder must have the same latent dim as the model. "
  ++ "In the model config latent dim is " ++ str l
  ++ " different than shared encoder latent dim " ++ str d.
Definition msg_joint_class : string :=
  "The joint encoder must be an instance of the ~multivae.models.nn.base_architectures.BaseJointEncoder class.".
Definition msg_joint_dim : string :=
  "The joint encoder 'latent_dim' attribute doesn't match the model config 'common_dim' attribute. ".
Definition msg_cond_mod : string :=
  "cond_mod must be : either a modality's name or equal to 'all' (for joint representation). ".

(** ** Construction *)

Fixpoint contains_dot (s : string) : bool :=
  match s with
  | EmptyString => false
  | String c s' => Ascii.eqb c "."%char || contains_dot s'
  end.

Definition dquote : string := String (Ascii.ascii_of_nat 34) EmptyString.

(** [self.networks[name] = module] on a [torch.nn.ModuleDict], that is
    [add_module(name, module)]: a [KeyError] when [name] is an attribute of
    the [ModuleDict] and not one of its modules, when it contains a dot and
    when it is empty.  [has_attribute name] is [hasattr] on a [ModuleDict]
    without modules; which names these are is torch's matter, and the
    development is parametric in the test.  The module is a [BaseEncoder]
    here, hence a [torch.nn.Module]. *)
Definition ModuleDict_setitem (has_attribute : string -> bool)
  (d : dict Encoder.t) (name : string) (module : Encoder.t) :
  res (dict Encoder.t) :=
  if has_attribute name && negb (dict_mem d name)
  then Raise (KeyError ("attribute '" ++ name ++ "' already exists"))
  else if contains_dot name
  then Raise (KeyError ("module name can't contain " ++ dquote ++ "."
                        ++ dquote ++ ", got: " ++ name))
  else if String.eqb name EmptyString
  then Raise (KeyError ("module name can't be empty string "
                        ++ dquote ++ dquote))
  else Ok (dict_set d name module).

(** The body of the loop of [set_networks] (lines 48-57). *)
Definition set_networks_body (has_attribute : string -> bool)
  (networks_ : dict Encoder.t) (m : string) : M unit :=
  e <- lift (dict_index networks_ m) ;;
  (if negb (Encoder.isinstance_BaseEncoder e)
   then raise (AttributeError msg_processor_class) else ret tt) ;;;
  e' <- lift (dict_index networks_ m) ;;
  g <- get_self ;;
  (if negb (Encoder.latent_dim e' =? common_dim g)%Z
   then raise (AttributeError
                 (msg_processor_dim m (Encoder.latent_dim e') (common_dim g)))
   else ret tt) ;;;
  v <- lift (dict_index networks_ m) ;;
  d <- getattr "networks" networks ;;
  d' <- lift (ModuleDict_setitem has_attribute d m v) ;;
  set_attr_networks d'.

Definition set_networks (has_attribute : string -> bool)
  (networks_ : dict Encoder.t) : M unit :=
  set_attr_networks [] ;;;
  g <- get_self ;;
  (if (Z.of_nat (length networks_) =? n_modalities g)%Z then ret tt
   else raise (AssertionError msg_count)) ;;;
  for_each (dict_keys networks_) (set_networks_body has_attribute networks_).

Definition set_shared_encoder (shared_encoder_ : Encoder.t) : M unit :=
  (if negb (Encoder.isinstance_BaseEncoder shared_encoder_)
   then raise (AttributeError msg_shared_class) else ret tt) ;;;
  g <- get_self ;;
  (if negb (Encoder.latent_dim shared_encoder_ =? latent_dim g)%Z
   then raise (AttributeError
                 (msg_shared_dim (latent_dim g)
                    (Encoder.latent_dim shared_encoder_)))
   else ret tt) ;;;
  set_attr_shared_encoder shared_encoder_.

(** Line 71 reads [if not joint_encoder.latent_dim != self.common_dim]. *)
Definition set_joint_encoder (joint_encoder_ : Encoder.t) : M unit :=
  (if negb (Encoder.isinstance_BaseJointEncoder joint_encoder_)
   then raise (AttributeError msg_joint_class) else ret tt) ;;;
  g <- get_self ;;
  (if negb (negb (Encoder.latent_dim joint_encoder_ =? common_dim g)%Z)
   then raise (AttributeError msg_joint_dim) else ret tt) ;;;
  set_attr_joint_encoder joint_encoder_.

(** The object after lines 28-35 of [__init__]. *)
Definition new_GMC (cfg : GMCConfig.t) : GMC :=
  {| config := cfg;
     n_modalities := GMCConfig.n_modalities cfg;
     latent_dim := GMCConfig.embedding_dim cfg;
     common_dim := GMCConfig.common_dim cfg;
     temperature := GMCConfig.temperature cfg;
     use_all_singular_values := GMCConfig.use_all_singular_values cfg;
     networks := None;
     joint_encoder := None;
     shared_encoder := None |}.

Definition init_body (has_attribute : string -> bool)
  (processors : dict Encoder.t)
  (joint_encoder_ shared_encoder_ : Encoder.t) : M unit :=
  set_networks has_attribute processors ;;;
  set_joint_encoder joint_encoder_ ;;;
  set_shared_encoder shared_encoder_.

(** [GMC(config, processors, joint_encoder, shared_encoder)]: the object when
    [__init__] returns, the exception otherwise; with it, the calls made to
    the sub-networks meanwhile. *)
Definition GMC_init (has_attribute : string -> bool) (cfg : GMCConfig.t)
  (processors : dict Encoder.t)
  (joint_encoder_ shared_encoder_ : Encoder.t) : res GMC * list Event :=
  let '(r, s) :=
    init_body has_attribute processors joint_encoder_ shared_encoder_
      {| self := new_GMC cfg; calls := [] |} in
  (match r with
   | inl e => inl e
   | inr _ => inr (self s)
   end, calls s).

(** ** [GMC.forward] and [GMC.encode] *)

Fixpoint forward_loop (inputs : MultimodalBaseDataset) (ms : list string)
  (modalities_z : dict matrix) : M (dict matrix) :=
  match ms with
  | [] => ret modalities_z
  | m :: ms' =>
      nets <- getattr "networks" networks ;;
      net <- lift (dict_index nets m) ;;
      x <- lift (dict_index (data inputs) m) ;;
      h <- call (Network m) net (ArgTensor x) ;;
      shared <- getattr "shared_encoder" shared_encoder ;;
      z <- call SharedEncoder shared (ArgTensor h) ;;
      forward_loop inputs ms' (dict_set modalities_z m z)
  end.

Definition forward (inputs : MultimodalBaseDataset) : M Tensor :=
  modalities_z <- forward_loop inputs (iter_inputs inputs) [] ;;
  joint <- getattr "joint_encoder" joint_encoder ;;
  joint_h <- call JointEncoder joint (ArgData (data inputs)) ;;
  shared <- getattr "shared_encoder" shared_encoder ;;
  joint_z <- call SharedEncoder shared (ArgTensor joint_h) ;;
  g <- get_self ;;
  loss <- lift (infonce (temperature g) modalities_z joint_z) ;;
  ret loss.

(** Lines 160 and 163 bind [z] to what the shared encoder returns, without
    [.embedding], and wrap it: [ModelOutput(embedding = z)]. *)
Definition encode (inputs : MultimodalBaseDataset) (cond_mod : string) :
  M ModelOutput :=
  if String.eqb cond_mod "all" then
    shared <- getattr "shared_encoder" shared_encoder ;;
    joint <- getattr "joint_encoder" joint_encoder ;;
    h <- call JointEncoder joint (ArgData (data inputs)) ;;
    z <- call_output SharedEncoder shared (ArgTensor h) ;;
    ret (NestedOutput z)
  else
    nets <- getattr "networks" networks ;;
    if dict_mem nets cond_mod then
      shared <- getattr "shared_encoder" shared_encoder ;;
      nets' <- getattr "networks" networks ;;
      net <- lift (dict_index nets' cond_mod) ;;
      h <- call (Network cond_mod) net (ArgData (data inputs)) ;;
      z <- call_output SharedEncoder shared (ArgTensor h) ;;
      ret (NestedOutput z)
    else raise (AttributeError msg_cond_mod).

(** ** Notions used to state the properties *)

Definition select_row {A : Type} (r : list A) (keep : list bool) : list A :=
  map fst (filter snd (combine r keep)).

(** The rows of a square matrix, each without its diagonal entry. *)
Definition drop_diag {A : Type} (m : list (list A)) : list (list A) :=
  zip_with remove_nth (seq 0 (length m)) m.

Definition off_diag_mask (s k n : nat) : list (list bool) :=
  map (fun i => map (fun j => negb (i =? j)) (seq 0 n)) (seq s k).

(** The value of [loss_joint_mod] on well-shaped operands: row [i] is
    [- ln (pos[i] / sum over j <> i of sim[i][j])]. *)
Definition loss_vector (temperature : R) (joint_z z : matrix) : vector :=
  zip_with (fun p s => (- ln (p / s))%R)
    (pos_sim temperature joint_z z)
    (sum_dim1 (drop_diag (sim_matrix temperature (joint_z ++ z)))).

(** The sum of all per-row losses of all modalities. *)
Definition grand_sum (temperature : R) (modalities_z : dict matrix)
  (joint_z : matrix) : R :=
  sum_list (map (fun kv => sum_list (loss_vector temperature joint_z (snd kv)))
              modalities_z).

(** Elementwise sum of the loss vectors of the modalities onto [acc]. *)
Definition accumulate (temperature : R) (joint_z : matrix)
  (kvs : dict matrix) (acc : vector) : vector :=
  fold_left (fun a kv => zip_with Rplus a (loss_vector temperature joint_z (snd kv)))
    kvs acc.

Definition zeros21 : matrix := [[0%R]; [0%R]].

Definition two_modalities : dict matrix := [("a", zeros21); ("b", zeros21)].

(** The value section 4.3 of the specification gives for the output: the
    grand sum of the per-row losses over [2B * n_modalities]. *)
Definition infonce_spec_mean (temperature : R) (modalities_z : dict matrix)
  (joint_z : matrix) : R :=
  (grand_sum temperature modalities_z joint_z
   / INR (2 * length joint_z * length modalities_z))%R.

Ltac mrun :=
  cbn [bind ret raise lift get_self put_self getattr call
       set_attr_networks set_attr_joint_encoder set_attr_shared_encoder
       self calls with_networks with_joint_encoder with_shared_encoder
       n_modalities common_dim latent_dim temperature
       networks joint_encoder shared_encoder rbind].

(** The error of [add_module] for a name that is not registered yet, if
    any. *)
Definition module_name_error (has_attribute : string -> bool)
  (name : string) : option exn :=
  if has_attribute name
  then Some (KeyError ("attribute '" ++ name ++ "' already exists"))
  else if contains_dot name
  then Some (KeyError ("module name can't contain " ++ dquote ++ "."
                       ++ dquote ++ ", got: " ++ name))
  else if String.eqb name EmptyString
  then Some (KeyError ("module name can't be empty string "
                       ++ dquote ++ dquote))
  else None.

(** A name [add_module] does not take. *)
Definition module_name_rejected (has_attribute : string -> bool)
  (name : string) : bool :=
  has_attribute name || contains_dot name || String.eqb name EmptyString.

Definition processor_ok (common : Z) (e : Encoder.t) : Prop :=
  Encoder.isinstance_BaseEncoder e = true /\ Encoder.latent_dim e = common.

Definition processor_bad (common : Z) (e : Encoder.t) : Prop :=
  Encoder.isinstance_BaseEncoder e = false \/ Encoder.latent_dim e <> common.

Definition construction_fails (has_attribute : string -> bool)
  (cfg : GMCConfig.t) (procs : dict Encoder.t) (je se : Encoder.t) : Prop :=
  exists e, fst (GMC_init has_attribute cfg procs je se) = Raise e.

(** The three invariants as section 8.1 of the specification lists them:
    modality count, common dimension, latent dimension. *)
Definition spec_invariants_violated (cfg : GMCConfig.t)
  (procs : dict Encoder.t) (se : Encoder.t) : Prop :=
  Z.of_nat (length procs) <> GMCConfig.n_modalities cfg
  \/ Exists (fun kv => Encoder.latent_dim (snd kv) <> GMCConfig.common_dim cfg)
       procs
  \/ Encoder.latent_dim se <> GMCConfig.embedding_dim cfg.

(** What [set_networks] and [set_shared_encoder] check, the names that the
    [ModuleDict] takes included. *)
Definition checks_violated (has_attribute : string -> bool)
  (cfg : GMCConfig.t) (procs : dict Encoder.t) (se : Encoder.t) : Prop :=
  Z.of_nat (length procs) <> GMCConfig.n_modalities cfg
  \/ Exists (fun kv => processor_bad (GMCConfig.common_dim cfg) (snd kv)
                       \/ module_name_rejected has_attribute (fst kv) = true)
       procs
  \/ processor_bad (GMCConfig.embedding_dim cfg) se.

(** The joint encoder is let through by [set_joint_encoder]. *)
Definition joint_check_passes (cfg : GMCConfig.t) (je : Encoder.t) : Prop :=
  fst (set_joint_encoder je {| self := new_GMC cfg; calls := [] |}) = Ok tt.

(** The object holding the configuration and exactly the supplied bindings. *)
Definition built (cfg : GMCConfig.t) (procs : dict Encoder.t)
  (je se : Encoder.t) : GMC :=
  with_shared_encoder
    (with_joint_encoder (with_networks (new_GMC cfg) procs) je) se.

(** A network that takes one tensor and returns it, and raises on anything
    else, as a network built from tensor operations does. *)
Definition tensor_forward (a : pyarg) : string + matrix :=
  match a with
  | ArgTensor x => inr x
  | ArgData _ => inl "TypeError: expected a Tensor, got dict"
  end.

(** A network that takes the mapping and returns its first tensor. *)
Definition mapping_forward (a : pyarg) : string + matrix :=
  match a with
  | ArgData ((_, x) :: _) => inr x
  | _ => inl "TypeError: expected a mapping of tensors"
  end.

Definition base_encoder (d : Z) : Encoder.t :=
  {| Encoder.isinstance_BaseEncoder := true;
     Encoder.isinstance_BaseJointEncoder := false;
     Encoder.latent_dim := d;
     Encoder.forward := tensor_forward |}.

Definition base_joint_encoder (d : Z) : Encoder.t :=
  {| Encoder.isinstance_BaseEncoder := true;
     Encoder.isinstance_BaseJointEncoder := true;
     Encoder.latent_dim := d;
     Encoder.forward := mapping_forward |}.

Definition not_an_encoder (d : Z) : Encoder.t :=
  {| Encoder.isinstance_BaseEncoder := false;
     Encoder.isinstance_BaseJointEncoder := false;
     Encoder.latent_dim := d;
     Encoder.forward := tensor_forward |}.

(** Names that are attributes of every [torch.nn.ModuleDict]: its mapping
    methods and some members of [torch.nn.Module].  The list is not all of
    them: the properties below are proved for every test, and this one is
    the instance for the examples, whose modality names ("a", "b", "all")
    are no attribute of a [ModuleDict]. *)
Definition ModuleDict_members : list string :=
  ["keys"; "items"; "values"; "pop"; "clear"; "update"; "forward";
   "training"; "parameters"; "modules"; "children"; "train"; "eval";
   "apply"; "state_dict"; "add_module"; "register_module"; "zero_grad"].

Definition is_ModuleDict_member (name : string) : bool :=
  existsb (String.eqb name) ModuleDict_members.

Definition example_config : GMCConfig.t :=
  {| GMCConfig.n_modalities := 1;
     GMCConfig.embedding_dim := 1;
     GMCConfig.common_dim := 1;
     GMCConfig.temperature := 1%R;
     GMCConfig.use_all_singular_values := true |}.

Definition example_processors : dict Encoder.t := [("a", base_encoder 1)].

Definition example_model : GMC :=
  built example_config example_processors (base_joint_encoder 2)
    (base_encoder 1).

Definition example_state : State := {| self := example_model; calls := [] |}.

Definition example_inputs : MultimodalBaseDataset :=
  {| data := [("a", zeros21)] |}.

Definition unregistered_inputs : MultimodalBaseDataset :=
  {| data := [("a", zeros21); ("b", zeros21)] |}.

(** The state after further calls to sub-networks. *)
Definition after_calls (s : State) (evs : list Event) : State :=
  {| self := self s; calls := calls s ++ evs |}.







(** Two batches of two samples of width one. *)
Definition unit21 : matrix := [[1%R]; [0%R]].

Definition flip21 : matrix := [[0%R]; [1%R]].

(** What the accumulator of [infonce] can be between two modalities: the
    integer it starts as, or a vector with one entry per row. *)
Definition acc_ok (B : nat) (acc : pyval) : Prop :=
  match acc with
  | PyInt _ => True
  | PyVec v => length v = 2 * B
  end.

(** An action that calls no sub-network. *)
Definition quiet {A : Type} (c : M A) : Prop :=
  forall s, calls (snd (c s)) = calls s.

(** The error of lines 48-57 for one processor, if any: its class, its
    dimension, then its name. *)
Definition processor_error (has_attribute : string -> bool) (common : Z)
  (m : string) (e : Encoder.t) : option exn :=
  if negb (Encoder.isinstance_BaseEncoder e)
  then Some (AttributeError msg_processor_class)
  else if negb (Encoder.latent_dim e =? common)%Z
       then Some (AttributeError
                    (msg_processor_dim m (Encoder.latent_dim e) common))
       else module_name_error has_attribute m.

(** The error of the first processor that has one. *)
Fixpoint first_processor_error (has_attribute : string -> bool) (common : Z)
  (procs : dict Encoder.t) : option exn :=
  match procs with
  | [] => None
  | (m, e) :: rest =>
      match processor_error has_attribute common m e with
      | Some x => Some x
      | None => first_processor_error has_attribute common rest
      end
  end.

(** The processors that come before the first one with an error. *)
Fixpoint accepted_prefix (has_attribute : string -> bool) (common : Z)
  (procs : dict Encoder.t) : dict Encoder.t :=
  match procs with
  | [] => []
  | (m, e) :: rest =>
      match processor_error has_attribute common m e with
      | Some _ => []
      | None => (m, e) :: accepted_prefix has_attribute common rest
      end
  end.

(** The checks of [__init__] in the order the code makes them, as a pure
    function: the first error, or none. *)
Definition validate (has_attribute : string -> bool) (cfg : GMCConfig.t)
  (procs : dict Encoder.t) (je se : Encoder.t) : option exn :=
  if negb (Z.of_nat (length procs) =? GMCConfig.n_modalities cfg)%Z
  then Some (AssertionError msg_count)
  else
    match first_processor_error has_attribute (GMCConfig.common_dim cfg)
            procs with
    | Some e => Some e
    | None =>
        if negb (Encoder.isinstance_BaseJointEncoder je)
        then Some (AttributeError msg_joint_class)
        else if (Encoder.latent_dim je =? GMCConfig.common_dim cfg)%Z
        then Some (AttributeError msg_joint_dim)
        else if negb (Encoder.isinstance_BaseEncoder se)
        then Some (AttributeError msg_shared_class)
        else if negb (Encoder.latent_dim se =? GMCConfig.embedding_dim cfg)%Z
        then Some (AttributeError
                     (msg_shared_dim (GMCConfig.embedding_dim cfg)
                        (Encoder.latent_dim se)))
        else None
    end.

Definition is_network_call (ev : Event) : bool :=
  match ev with
  | Call (Network _) _ => true
  | Call _ _ => false
  end.

(** What the sub-networks return in the loop of [forward] for the entries
    [kvs] of the batch: for each entry, the output [h] of its encoder on its
    tensor and the output [z] of the shared head on [h]. *)
Definition modality_outputs (nets : dict Encoder.t) (se : Encoder.t)
  (kvs : dict matrix) (hzs : list (matrix * matrix)) : Prop :=
  Forall2 (fun kv hz =>
             exists net,
               dict_get nets (fst kv) = Some net
               /\ Encoder.forward net (ArgTensor (snd kv)) = inr (fst hz)
               /\ Encoder.forward se (ArgTensor (fst hz)) = inr (snd hz))
    kvs hzs.

(** The calls of the loop of [forward], in order. *)
Definition modality_calls (kvs : dict matrix) (hzs : list (matrix * matrix)) :
  list Event :=
  flat_map (fun p => [Call (Network (fst (fst p))) (ArgTensor (snd (fst p)));
                      Call SharedEncoder (ArgTensor (fst (snd p)))])
    (combine kvs hzs).

(** The mapping [modalities_z] the loop of [forward] builds. *)
Definition modality_embeddings (kvs : dict matrix)
  (hzs : list (matrix * matrix)) : dict matrix :=
  map (fun p => (fst (fst p), snd (snd p))) (combine kvs hzs).




(** A model one of whose modalities is named "all". *)
Definition all_named_state : State :=
  {| self := built example_config [("all", base_encoder 1)]
               (base_joint_encoder 2) (base_encoder 1);
     calls := [] |}.

Definition empty_inputs : MultimodalBaseDataset := {| data := [] |}.

(** A joint encoder that returns the same two rows whatever the mapping. *)
Definition constant_forward (a : pyarg) : string + matrix := inr zeros21.

Definition constant_joint_encoder : Encoder.t :=
  {| Encoder.isinstance_BaseEncoder := true;
     Encoder.isinstance_BaseJointEncoder := true;
     Encoder.latent_dim := 2;
     Encoder.forward := constant_forward |}.

Definition constant_joint_state : State :=
  {| self := built example_config example_processors constant_joint_encoder
               (base_encoder 1);
     calls := [] |}.

(** An action that leaves the object as it was. *)
Definition keeps_object {A : Type} (c : M A) : Prop :=
  forall s, self (snd (c s)) = self s.

(** The similarity [exp (dot v r / temperature)] of a row [r] to [v]. *)
Definition similarity (temperature : R) (v r : list R) : R :=
  exp (dot v r / temperature).

(** * Properties *)

(** ** Lists, rows and shapes *)

Lemma zip_with_cons {A B C : Type} (f : A -> B -> C) a l b l' :
  zip_with f (a :: l) (b :: l') = f a b :: zip_with f l l'.
Proof. reflexivity. Qed.

Lemma zip_with_length {A B C : Type} (f : A -> B -> C) l l' :
  length l = length l' -> length (zip_with f l l') = length l.
Proof.
  intros H. unfold zip_with.
  rewrite length_map, length_combine, <- H. apply Nat.min_id.
Qed.

Lemma combine_app_same {A B : Type} (a c : list A) (b d : list B) :
  length a = length b ->
  combine (a ++ c) (b ++ d) = combine a b ++ combine c d.
Proof.
  revert b. induction a as [|x a IH]; intros [|y b] H; simpl in *;
    try discriminate; auto.
  f_equal. apply IH. lia.
Qed.

Lemma remove_nth_length {A : Type} (i : nat) (l : list A) :
  i < length l -> length (remove_nth i l) = length l - 1.
Proof.
  intros H. unfold remove_nth.
  rewrite length_app, length_firstn, length_skipn. lia.
Qed.

Lemma length_concat_uniform {A : Type} (c : nat) (rows : list (list A)) :
  Forall (fun r => length r = c) rows ->
  length (concat rows) = length rows * c.
Proof.
  induction 1 as [|r rows Hr _ IH]; simpl; auto.
  rewrite length_app, IH, Hr. reflexivity.
Qed.

Lemma take_rows_concat (c : nat) (rows : matrix) :
  Forall (fun r => length r = c) rows ->
  take_rows (length rows) c (concat rows) = rows.
Proof.
  induction 1 as [|r rows Hr _ IH]; simpl; auto.
  subst c.
  rewrite firstn_app, skipn_app, Nat.sub_diag, firstn_all, skipn_all.
  simpl. rewrite app_nil_r. now rewrite IH.
Qed.

Lemma view_rows_concat (c : nat) (rows : matrix) :
  rows <> [] ->
  Forall (fun r => length r = c) rows ->
  view_rows (length rows) (concat rows) = Ok rows.
Proof.
  intros Hne Hc. unfold view_rows.
  destruct (length rows =? 0) eqn:E.
  - apply Nat.eqb_eq in E. destruct rows; [congruence | discriminate].
  - apply Nat.eqb_neq in E.
    rewrite (length_concat_uniform c) by assumption.
    rewrite Nat.mul_comm, Nat.Div0.mod_mul, Nat.eqb_refl.
    rewrite Nat.div_mul by assumption.
    now rewrite take_rows_concat.
Qed.

(** ** The diagonal mask *)

Lemma select_row_all {A : Type} (r : list A) (keep : list bool) :
  length keep = length r -> Forall (fun b => b = true) keep ->
  select_row r keep = r.
Proof.
  revert keep. induction r as [|x r IH]; intros [|b keep] Hl Hk;
    simpl in *; try discriminate; auto.
  inversion Hk; subst. unfold select_row in *. simpl.
  f_equal. apply IH; auto.
Qed.

Lemma select_row_cons {A : Type} (x : A) r (b : bool) keep :
  select_row (x :: r) (b :: keep)
  = if b then x :: select_row r keep else select_row r keep.
Proof. destruct b; reflexivity. Qed.

Lemma select_row_diag {A : Type} (r : list A) (i : nat) :
  select_row r (map (fun j => negb (i =? j)) (seq 0 (length r)))
  = remove_nth i r.
Proof.
  revert i. induction r as [|x r IH]; intros i.
  - unfold remove_nth. now rewrite firstn_nil, skipn_nil.
  - cbn [length seq map]. rewrite select_row_cons. destruct i as [|i].
    + cbn [Nat.eqb negb]. rewrite select_row_all.
      * reflexivity.
      * now rewrite length_map, length_seq.
      * apply Forall_forall. intros b Hb. apply in_map_iff in Hb.
        destruct Hb as [j [<- Hj]]. apply in_seq in Hj.
        destruct j; [lia | reflexivity].
    + cbn [Nat.eqb negb]. rewrite <- seq_shift, map_map.
      cbn [Nat.eqb]. rewrite IH. reflexivity.
Qed.

Lemma select_flat {A : Type} (m : list (list A)) (mask : list (list bool)) :
  same_shape m mask = true ->
  map fst (filter snd (combine (concat m) (concat mask)))
  = concat (zip_with select_row m mask).
Proof.
  revert mask. induction m as [|r m IH]; intros [|k mask] H;
    cbn [same_shape] in H; try discriminate; auto.
  apply andb_true_iff in H. destruct H as [Hl H].
  apply Nat.eqb_eq in Hl.
  cbn [concat]. rewrite combine_app_same by assumption.
  rewrite filter_app, map_app, zip_with_cons. cbn [concat].
  f_equal. now apply IH.
Qed.

Lemma same_shape_off_diag {A : Type} (m : list (list A)) (s n : nat) :
  Forall (fun r => length r = n) m ->
  same_shape m (off_diag_mask s (length m) n) = true.
Proof.
  intros H. revert s. induction H as [|r m Hr _ IH]; intros s; simpl; auto.
  rewrite length_map, length_seq, Hr, Nat.eqb_refl. simpl. apply IH.
Qed.

Lemma select_rows_off_diag {A : Type} (m : list (list A)) (s n : nat) :
  Forall (fun r => length r = n) m ->
  zip_with select_row m (off_diag_mask s (length m) n)
  = zip_with remove_nth (seq s (length m)) m.
Proof.
  intros H. revert s. induction H as [|r m Hr _ IH]; intros s; auto.
  cbn [length seq off_diag_mask map].
  rewrite !zip_with_cons. f_equal.
  - rewrite <- Hr. apply select_row_diag.
  - apply IH.
Qed.

Lemma sub_ones_eye_row {A : Type} (r : list A) (i s : nat) :
  zip_with Z.sub (map (fun _ => 1%Z) r)
    (map (fun j => if i =? j then 1%Z else 0%Z) (seq s (length r)))
  = map (fun j => if i =? j then 0%Z else 1%Z) (seq s (length r)).
Proof.
  revert s. induction r as [|x r IH]; intros s; auto.
  cbn [length seq map]. rewrite zip_with_cons. f_equal.
  - destruct (i =? s); reflexivity.
  - apply IH.
Qed.

Lemma eye_shape {A : Type} (m : list (list A)) (n : nat) :
  length m = n -> Forall (fun r => length r = n) m ->
  same_shape (ones_like m) (eye n) = true.
Proof.
  intros Hl H. unfold eye.
  assert (G : forall s,
             same_shape (ones_like m)
               (map (fun i => map (fun j => if i =? j then 1%Z else 0%Z)
                                  (seq 0 n)) (seq s (length m))) = true).
  { clear Hl. induction H as [|r m Hr _ IH]; intros s; simpl; auto.
    rewrite !length_map, length_seq, Hr, Nat.eqb_refl. simpl. apply IH. }
  rewrite Hl in G. apply G.
Qed.

Lemma mask_joint_mod_square (B : nat) (sim : matrix) :
  length sim = 2 * B ->
  Forall (fun r => length r = 2 * B) sim ->
  mask_joint_mod B sim = Ok (off_diag_mask 0 (length sim) (2 * B)).
Proof.
  intros Hl H. unfold mask_joint_mod, tensor_sub.
  rewrite eye_shape by assumption. cbn [rbind]. f_equal.
  unfold eye, off_diag_mask, to_bool, ones_like.
  set (n := 2 * B) in *.
  assert (G : forall s,
             map (map (fun z => negb (z =? 0)%Z))
               (zip_with (zip_with Z.sub) (map (map (fun _ => 1%Z)) sim)
                  (map (fun i => map (fun j => if i =? j then 1%Z else 0%Z)
                                     (seq 0 n)) (seq s (length sim))))
             = map (fun i => map (fun j => negb (i =? j)) (seq 0 n))
                 (seq s (length sim))).
  { clear Hl. induction H as [|r m Hr _ IH]; intros s; auto.
    cbn [length seq map]. rewrite zip_with_cons. cbn [map]. f_equal.
    - rewrite <- Hr, sub_ones_eye_row, map_map.
      apply map_ext. intros j. destruct (s =? j); reflexivity.
    - apply IH. }
  rewrite <- (G 0), Hl. reflexivity.
Qed.

(** ** The masked similarity matrix *)

Lemma same_width_uniform {A : Type} (n : nat) (m : list (list A)) :
  Forall (fun r => length r = n) m -> same_width m = true.
Proof.
  intros H. destruct H as [|r m Hr H]; simpl; auto.
  apply forallb_forall. intros r' Hin.
  rewrite Forall_forall in H. rewrite (H _ Hin), Hr. apply Nat.eqb_refl.
Qed.

Lemma torch_cat_ok (B D : nat) (a b : matrix) :
  has_shape B D a -> has_shape B D b ->
  torch_cat a b = Ok (a ++ b) /\ has_shape (2 * B) D (a ++ b).
Proof.
  intros [Ha Fa] [Hb Fb].
  assert (F : Forall (fun r => length r = D) (a ++ b))
    by (apply Forall_app; split; assumption).
  split.
  - unfold torch_cat. now rewrite (same_width_uniform D).
  - split; [rewrite length_app; lia | assumption].
Qed.

Lemma sim_matrix_square (temperature : R) (out : matrix) :
  has_shape (length out) (length out) (sim_matrix temperature out).
Proof.
  unfold sim_matrix, exp_div, torch_mm_t. split.
  - now rewrite !length_map.
  - apply Forall_forall. intros r Hr.
    apply in_map_iff in Hr. destruct Hr as [r' [<- Hr']].
    apply in_map_iff in Hr'. destruct Hr' as [u [<- _]].
    now rewrite !length_map.
Qed.

Lemma drop_diag_length {A : Type} (m : list (list A)) :
  length (drop_diag m) = length m.
Proof.
  unfold drop_diag. rewrite zip_with_length; now rewrite length_seq.
Qed.

Lemma zip_with_nth {A B C : Type} (f : A -> B -> C) l l' i da db dc :
  i < length l -> i < length l' ->
  nth i (zip_with f l l') dc = f (nth i l da) (nth i l' db).
Proof.
  revert l' i. induction l as [|a l IH]; intros [|b l'] [|i] Hl Hl';
    cbn [length] in *; try lia; rewrite zip_with_cons; cbn [nth]; auto.
  apply IH; lia.
Qed.

Lemma drop_diag_nth {A : Type} (m : list (list A)) (i : nat) :
  i < length m -> nth i (drop_diag m) [] = remove_nth i (nth i m []).
Proof.
  intros H. unfold drop_diag.
  rewrite (zip_with_nth _ _ _ _ 0 []) by (rewrite ?length_seq; assumption).
  now rewrite seq_nth.
Qed.

Lemma drop_diag_width {A : Type} (n : nat) (m : list (list A)) :
  length m = n -> Forall (fun r => length r = n) m ->
  Forall (fun r => length r = n - 1) (drop_diag m).
Proof.
  intros Hl H. apply Forall_forall. intros r Hin.
  destruct (In_nth _ _ [] Hin) as [i [Hi Hnth]].
  rewrite drop_diag_length in Hi.
  rewrite drop_diag_nth in Hnth by assumption. subst r.
  rewrite Forall_forall in H.
  assert (Hrow : length (nth i m []) = n) by (apply H, nth_In; assumption).
  rewrite remove_nth_length; lia.
Qed.

Lemma masked_sim_matrix_ok (temperature : R) (B D : nat) (joint_z z : matrix) :
  1 <= B -> has_shape B D joint_z -> has_shape B D z ->
  masked_sim_matrix temperature joint_z z
  = Ok (drop_diag (sim_matrix temperature (joint_z ++ z))).
Proof.
  intros HB Hj Hz.
  destruct (torch_cat_ok B D joint_z z Hj Hz) as [Hcat [Hlen _]].
  unfold masked_sim_matrix. rewrite Hcat. cbn [rbind].
  destruct Hj as [Hj _]. rewrite Hj.
  set (sim := sim_matrix temperature (joint_z ++ z)).
  destruct (sim_matrix_square temperature (joint_z ++ z)) as [Sl Sw].
  fold sim in Sl, Sw. rewrite Hlen in Sl, Sw.
  rewrite mask_joint_mod_square by assumption. cbn [rbind].
  unfold masked_select.
  rewrite same_shape_off_diag by assumption. cbn [rbind].
  rewrite select_flat by (apply same_shape_off_diag; assumption).
  rewrite select_rows_off_diag by assumption.
  fold (drop_diag sim).
  rewrite <- Sl at 1. rewrite <- (drop_diag_length sim).
  apply (view_rows_concat (2 * B - 1)).
  - intros E. apply (f_equal (@length _)) in E.
    rewrite drop_diag_length, Sl in E. simpl in E. lia.
  - now apply drop_diag_width.
Qed.

Lemma nth_map_in {A B : Type} (f : A -> B) (l : list A) i d d' :
  i < length l -> nth i (map f l) d = f (nth i l d').
Proof.
  intros H. rewrite (nth_indep _ d (f d')) by (now rewrite length_map).
  apply map_nth.
Qed.

Lemma sim_matrix_entry (temperature : R) (out : matrix) (i j : nat) :
  i < length out -> j < length out ->
  nth j (nth i (sim_matrix temperature out) []) 0%R
  = exp (dot (nth i out []) (nth j out []) / temperature).
Proof.
  intros Hi Hj. unfold sim_matrix, exp_div, torch_mm_t.
  rewrite map_map.
  rewrite (nth_map_in _ out i [] []) by assumption.
  rewrite map_map.
  now rewrite (nth_map_in _ out j 0%R []) by assumption.
Qed.

(** ** The per-modality loss vector and its accumulation *)

Lemma pos_sim_length (temperature : R) (B D : nat) (joint_z z : matrix) :
  has_shape B D joint_z -> has_shape B D z ->
  length (pos_sim temperature joint_z z) = 2 * B.
Proof.
  intros [Hj _] [Hz _]. unfold pos_sim, sum_dim1, mul_mat.
  rewrite length_app, !length_map, zip_with_length by congruence. lia.
Qed.

Lemma loss_vector_length (temperature : R) (B D : nat) (joint_z z : matrix) :
  has_shape B D joint_z -> has_shape B D z ->
  length (loss_vector temperature joint_z z) = 2 * B.
Proof.
  intros Hj Hz. unfold loss_vector.
  assert (Hp := pos_sim_length temperature B D joint_z z Hj Hz).
  rewrite zip_with_length; [assumption|].
  rewrite Hp. unfold sum_dim1. rewrite length_map, drop_diag_length.
  destruct (sim_matrix_square temperature (joint_z ++ z)) as [-> _].
  destruct Hj as [Hj _], Hz as [Hz _]. rewrite length_app. lia.
Qed.

Lemma loss_joint_mod_ok (temperature : R) (B D : nat) (joint_z z : matrix) :
  1 <= B -> has_shape B D joint_z -> has_shape B D z ->
  loss_joint_mod temperature joint_z z
  = Ok (loss_vector temperature joint_z z).
Proof.
  intros HB Hj Hz. unfold loss_joint_mod.
  now rewrite (masked_sim_matrix_ok temperature B D).
Qed.

Lemma dict_get_in {V : Type} (d : dict V) (k : string) (v : V) :
  dict_wf d -> In (k, v) d -> dict_get d k = Some v.
Proof.
  unfold dict_wf, dict_keys.
  induction d as [|[k' v'] d IH]; intros Hnd Hin; [contradiction|].
  simpl in *. inversion Hnd as [|? ? Hnotin Hnd']; subst.
  destruct Hin as [E | Hin].
  - inversion E; subst. now rewrite String.eqb_refl.
  - destruct (String.eqb_spec k k') as [->|_].
    + exfalso. apply Hnotin. apply in_map_iff. now exists (k', v).
    + now apply IH.
Qed.

Lemma sum_list_cons (x : R) (v : vector) :
  sum_list (x :: v) = (x + sum_list v)%R.
Proof. reflexivity. Qed.

Lemma sum_list_app (u v : vector) :
  sum_list (u ++ v) = (sum_list u + sum_list v)%R.
Proof.
  induction u as [|x u IH]; cbn [app].
  - unfold sum_list at 2. simpl. lra.
  - rewrite !sum_list_cons, IH. lra.
Qed.

Lemma sum_list_zip_plus (u v : vector) :
  length u = length v ->
  sum_list (zip_with Rplus u v) = (sum_list u + sum_list v)%R.
Proof.
  revert v. induction u as [|x u IH]; intros [|y v] H; cbn [length] in H;
    try discriminate.
  - unfold zip_with, sum_list. simpl. lra.
  - rewrite zip_with_cons, !sum_list_cons, IH by lia. lra.
Qed.

Lemma sum_list_map_zero_plus (v : vector) :
  sum_list (map (fun x => (IZR 0 + x)%R) v) = sum_list v.
Proof.
  induction v as [|x v IH]; cbn [map]; [reflexivity|].
  rewrite !sum_list_cons, IH. lra.
Qed.

Lemma accumulate_length temperature (B D : nat) joint_z kvs acc :
  has_shape B D joint_z ->
  Forall (fun kv => has_shape B D (snd kv)) kvs ->
  length acc = 2 * B ->
  length (accumulate temperature joint_z kvs acc) = 2 * B.
Proof.
  intros Hj H. revert acc. induction H as [|kv kvs Hkv _ IH]; intros acc Ha;
    simpl; auto.
  apply IH. rewrite zip_with_length; [assumption|].
  now rewrite (loss_vector_length temperature B D).
Qed.

Lemma accumulate_sum temperature (B D : nat) joint_z kvs acc :
  has_shape B D joint_z ->
  Forall (fun kv => has_shape B D (snd kv)) kvs ->
  length acc = 2 * B ->
  sum_list (accumulate temperature joint_z kvs acc)
  = (sum_list acc + grand_sum temperature kvs joint_z)%R.
Proof.
  intros Hj H. revert acc. induction H as [|kv kvs Hkv _ IH]; intros acc Ha.
  - unfold grand_sum. simpl. lra.
  - cbn [accumulate fold_left].
    fold (accumulate temperature joint_z kvs
            (zip_with Rplus acc (loss_vector temperature joint_z (snd kv)))).
    assert (Hl : length (loss_vector temperature joint_z (snd kv)) = 2 * B)
      by now apply (loss_vector_length temperature B D).
    rewrite IH by (rewrite zip_with_length; congruence).
    rewrite sum_list_zip_plus by congruence.
    unfold grand_sum. cbn [map]. rewrite sum_list_cons. lra.
Qed.

Lemma accumulate_nth temperature (B D : nat) joint_z kvs acc (i : nat) :
  has_shape B D joint_z ->
  Forall (fun kv => has_shape B D (snd kv)) kvs ->
  length acc = 2 * B -> i < 2 * B ->
  nth i (accumulate temperature joint_z kvs acc) 0%R
  = (nth i acc 0
     + sum_list (map (fun kv => nth i (loss_vector temperature joint_z (snd kv)) 0)
                   kvs))%R.
Proof.
  intros Hj H. revert acc. induction H as [|kv kvs Hkv _ IH]; intros acc Ha Hi.
  - simpl. lra.
  - cbn [accumulate fold_left].
    fold (accumulate temperature joint_z kvs
            (zip_with Rplus acc (loss_vector temperature joint_z (snd kv)))).
    assert (Hl : length (loss_vector temperature joint_z (snd kv)) = 2 * B)
      by now apply (loss_vector_length temperature B D).
    rewrite IH by (rewrite ?zip_with_length; congruence).
    rewrite (zip_with_nth _ _ _ _ 0%R 0%R) by congruence.
    cbn [map]. rewrite sum_list_cons. lra.
Qed.

(** The loop of [infonce], started on a tensor accumulator. *)
Lemma infonce_loop_vec temperature (B D : nat) modalities_z joint_z kvs acc :
  1 <= B -> has_shape B D joint_z ->
  Forall (fun kv => has_shape B D (snd kv)) kvs ->
  (forall k v, In (k, v) kvs -> dict_get modalities_z k = Some v) ->
  length acc = 2 * B ->
  infonce_loop temperature modalities_z joint_z (dict_keys kvs) (PyVec acc)
  = Ok (PyVec (accumulate temperature joint_z kvs acc)).
Proof.
  intros HB Hj H. revert acc.
  induction H as [|[k v] kvs Hkv _ IH]; intros acc Hget Ha; [reflexivity|].
  cbn [dict_keys map fst infonce_loop]. unfold dict_index.
  rewrite (Hget k v) by (left; reflexivity). cbn [rbind].
  rewrite (loss_joint_mod_ok temperature B D) by assumption. cbn [rbind iadd].
  assert (Hl : length (loss_vector temperature joint_z v) = 2 * B)
    by now apply (loss_vector_length temperature B D).
  rewrite Ha, Hl, Nat.eqb_refl. cbn [rbind].
  apply IH.
  - intros k' v' Hin. apply Hget. now right.
  - rewrite zip_with_length; congruence.
Qed.

(** The whole loop, started on the integer [0]. *)
Lemma infonce_loop_ok temperature (B D : nat) modalities_z joint_z :
  1 <= B -> has_shape B D joint_z ->
  Forall (fun kv => has_shape B D (snd kv)) modalities_z ->
  dict_wf modalities_z -> modalities_z <> [] ->
  exists acc,
    infonce_loop temperature modalities_z joint_z (dict_keys modalities_z)
      (PyInt 0) = Ok (PyVec acc)
    /\ length acc = 2 * B
    /\ sum_list acc = grand_sum temperature modalities_z joint_z
    /\ forall i, i < 2 * B ->
         nth i acc 0%R
         = sum_list (map (fun kv =>
                            nth i (loss_vector temperature joint_z (snd kv)) 0%R)
                       modalities_z).
Proof.
  intros HB Hj H Hwf Hne.
  destruct modalities_z as [|[k v] kvs] eqn:E; [congruence|].
  rewrite <- E in Hwf.
  assert (Hget : forall k' v', In (k', v') ((k, v) :: kvs) ->
                   dict_get ((k, v) :: kvs) k' = Some v').
  { intros k' v' Hin. rewrite <- E. apply dict_get_in; [assumption|].
    now rewrite E. }
  inversion H as [|? ? Hv Hkvs]; subst. cbn [snd] in Hv.
  assert (Hl : length (loss_vector temperature joint_z v) = 2 * B)
    by now apply (loss_vector_length temperature B D).
  set (a0 := map (fun x => (IZR 0 + x)%R) (loss_vector temperature joint_z v)).
  assert (Ha0 : length a0 = 2 * B) by (unfold a0; now rewrite length_map).
  exists (accumulate temperature joint_z kvs a0).
  split; [|split; [|split]].
  - cbn [dict_keys map fst infonce_loop]. unfold dict_index.
    rewrite (Hget k v) by (left; reflexivity). cbn [rbind].
    rewrite (loss_joint_mod_ok temperature B D) by assumption.
    cbn [rbind iadd]. fold a0.
    apply (infonce_loop_vec temperature B D); auto.
    intros k' v' Hin. apply Hget. now right.
  - now apply (accumulate_length temperature B D).
  - rewrite (accumulate_sum temperature B D) by assumption.
    unfold a0. rewrite sum_list_map_zero_plus.
    unfold grand_sum. cbn [map snd]. rewrite sum_list_cons. lra.
  - intros i Hi.
    rewrite (accumulate_nth temperature B D) by assumption.
    unfold a0.
    rewrite (nth_map_in _ _ i 0%R 0%R) by congruence.
    cbn [map snd]. rewrite sum_list_cons. lra.
Qed.

Lemma infonce_value temperature (B D : nat) modalities_z joint_z :
  1 <= B -> has_shape B D joint_z ->
  Forall (fun kv => has_shape B D (snd kv)) modalities_z ->
  dict_wf modalities_z -> modalities_z <> [] ->
  infonce temperature modalities_z joint_z
  = Ok (Scalar (grand_sum temperature modalities_z joint_z / INR (2 * B))).
Proof.
  intros HB Hj H Hwf Hne.
  destruct (infonce_loop_ok temperature B D modalities_z joint_z
              HB Hj H Hwf Hne) as [acc [Hloop [Hlen [Hsum _]]]].
  unfold infonce. rewrite Hloop. cbn [rbind torch_mean].
  now rewrite Hlen, Hsum.
Qed.

(** ** Rows of the similarity matrix and entries of the loss vector *)

Lemma remove_nth_app_l {A : Type} (i : nat) (a b : list A) :
  i < length a -> remove_nth i (a ++ b) = remove_nth i a ++ b.
Proof.
  intros H. unfold remove_nth.
  rewrite firstn_app, skipn_app.
  replace (i - length a) with 0 by lia.
  replace (S i - length a) with 0 by lia.
  simpl. now rewrite app_nil_r, app_assoc.
Qed.

Lemma remove_nth_app_r {A : Type} (k : nat) (a b : list A) :
  remove_nth (length a + k) (a ++ b) = a ++ remove_nth k b.
Proof.
  unfold remove_nth.
  rewrite firstn_app, skipn_app.
  rewrite firstn_all2 by lia. rewrite skipn_all2 by lia.
  replace (length a + k - length a) with k by lia.
  replace (S (length a + k) - length a) with (S k) by lia.
  simpl. now rewrite app_assoc.
Qed.

Lemma remove_nth_S {A : Type} (i : nat) (x : A) (l : list A) :
  remove_nth (S i) (x :: l) = x :: remove_nth i l.
Proof. reflexivity. Qed.

Lemma sum_remove_nth (i : nat) (l : vector) :
  i < length l ->
  sum_list l = (nth i l 0 + sum_list (remove_nth i l))%R.
Proof.
  revert i. induction l as [|x l IH]; intros [|i] H; cbn [length] in H;
    try lia.
  - rewrite sum_list_cons. reflexivity.
  - rewrite remove_nth_S, !sum_list_cons. cbn [nth].
    rewrite (IH i) at 1 by lia. lra.
Qed.

Lemma sim_matrix_row (temperature : R) (out : matrix) (i : nat) :
  i < length out ->
  nth i (sim_matrix temperature out) []
  = map (fun r => exp (dot (nth i out []) r / temperature)) out.
Proof.
  intros Hi. unfold sim_matrix, exp_div, torch_mm_t.
  rewrite map_map.
  rewrite (nth_map_in _ out i [] []) by assumption.
  now rewrite map_map.
Qed.

Lemma pos_sim_nth (temperature : R) (joint_z z : matrix) (k : nat) :
  length joint_z = length z -> k < length joint_z ->
  nth k (pos_sim temperature joint_z z) 0%R
  = exp (dot (nth k joint_z []) (nth k z []) / temperature)
  /\ nth (length joint_z + k) (pos_sim temperature joint_z z) 0%R
     = exp (dot (nth k joint_z []) (nth k z []) / temperature).
Proof.
  intros Hl Hk. unfold pos_sim, sum_dim1, mul_mat.
  set (p := map _ (map sum_list _)).
  assert (Hp : length p = length joint_z).
  { unfold p. now rewrite !length_map, zip_with_length. }
  assert (Hnth : nth k p 0%R
                 = exp (dot (nth k joint_z []) (nth k z []) / temperature)).
  { unfold p. rewrite map_map.
    rewrite (nth_map_in _ _ k 0%R [])
      by (rewrite zip_with_length; assumption).
    rewrite (zip_with_nth _ _ _ _ [] []) by congruence.
    reflexivity. }
  split.
  - rewrite app_nth1 by congruence. exact Hnth.
  - rewrite app_nth2 by lia.
    replace (length joint_z + k - length p) with k by lia. exact Hnth.
Qed.

Lemma loss_vector_nth (temperature : R) (B D : nat) (joint_z z : matrix) i :
  has_shape B D joint_z -> has_shape B D z -> i < 2 * B ->
  nth i (loss_vector temperature joint_z z) 0%R
  = (- ln (nth i (pos_sim temperature joint_z z) 0
           / sum_list (remove_nth i
                         (nth i (sim_matrix temperature (joint_z ++ z)) []))))%R.
Proof.
  intros Hj Hz Hi.
  assert (Hp := pos_sim_length temperature B D joint_z z Hj Hz).
  assert (Hs : length (sim_matrix temperature (joint_z ++ z)) = 2 * B).
  { destruct (sim_matrix_square temperature (joint_z ++ z)) as [-> _].
    destruct Hj as [Hj _], Hz as [Hz _]. rewrite length_app. lia. }
  unfold loss_vector.
  rewrite (zip_with_nth _ _ _ _ 0%R 0%R);
    [| lia | unfold sum_dim1; rewrite length_map, drop_diag_length; lia].
  unfold sum_dim1.
  rewrite (nth_map_in _ _ i 0%R []) by (rewrite drop_diag_length; lia).
  now rewrite drop_diag_nth by lia.
Qed.

Lemma zeros21_shape : has_shape 2 1 zeros21.
Proof. split; [reflexivity | repeat constructor]. Qed.

Lemma two_modalities_shape :
  Forall (fun kv => has_shape 2 1 (snd kv)) two_modalities.
Proof. repeat constructor. Qed.

Lemma two_modalities_wf : dict_wf two_modalities.
Proof.
  unfold dict_wf, two_modalities. simpl.
  repeat constructor; simpl; intuition discriminate.
Qed.

Lemma exp_zero_dot (temperature : R) :
  exp ((0 * 0 + 0) / temperature) = 1%R.
Proof.
  replace ((0 * 0 + 0) / temperature)%R with 0%R by (unfold Rdiv; lra).
  apply exp_0.
Qed.

(** On zero embeddings every similarity is [exp 0 = 1] and every row of the
    loss is [- ln (1 / 3) = ln 3]. *)
Lemma loss_vector_zeros :
  loss_vector 1 zeros21 zeros21 = [ln 3; ln 3; ln 3; ln 3].
Proof.
  cbv [loss_vector pos_sim zeros21 sum_dim1 mul_mat zip_with combine map fst
       snd app sum_list fold_right drop_diag sim_matrix exp_div torch_mm_t
       dot length seq remove_nth firstn skipn].
  rewrite !exp_zero_dot.
  replace (- ln (1 / (1 + (1 + (1 + 0)))))%R with (ln 3).
  - reflexivity.
  - replace (1 / (1 + (1 + (1 + 0))))%R with (/ 3)%R by lra.
    rewrite ln_Rinv by lra. lra.
Qed.

(** ** Claims about [infonce] *)

(** C3 (as the code has it): on well-shaped embeddings of batch size B >= 1,
    [infonce] accumulates the 2B-long loss vectors of the modalities by
    elementwise sum and returns the mean over the 2B entries of the
    accumulated vector, that is the grand sum of all per-row losses divided
    by 2B. *)
Theorem infonce_mean_of_accumulated_rows
  (temperature : R) (B D : nat) (modalities_z : dict matrix) (joint_z : matrix) :
  1 <= B -> has_shape B D joint_z ->
  Forall (fun kv => has_shape B D (snd kv)) modalities_z ->
  dict_wf modalities_z -> modalities_z <> [] ->
  exists acc,
    infonce_loop temperature modalities_z joint_z (dict_keys modalities_z)
      (PyInt 0) = Ok (PyVec acc)
    /\ length acc = 2 * B
    /\ (forall i, i < 2 * B ->
          nth i acc 0%R
          = sum_list (map (fun kv =>
                             nth i (loss_vector temperature joint_z (snd kv)) 0%R)
                        modalities_z))
    /\ Forall (fun kv => loss_joint_mod temperature joint_z (snd kv)
                         = Ok (loss_vector temperature joint_z (snd kv)))
         modalities_z
    /\ infonce temperature modalities_z joint_z
       = Ok (Scalar (sum_list acc / INR (2 * B)))
    /\ sum_list acc = grand_sum temperature modalities_z joint_z.
Proof.
  intros HB Hj H Hwf Hne.
  destruct (infonce_loop_ok temperature B D modalities_z joint_z
              HB Hj H Hwf Hne) as [acc [Hloop [Hlen [Hsum Hnth]]]].
  exists acc. repeat split; try assumption.
  - apply Forall_forall. intros kv Hkv. rewrite Forall_forall in H.
    apply (loss_joint_mod_ok temperature B D); auto.
  - rewrite (infonce_value temperature B D) by assumption.
    now rewrite Hsum.
Qed.

Lemma infonce_mean_of_accumulated_rows_witness :
  exists acc,
    infonce_loop 1 two_modalities zeros21 (dict_keys two_modalities)
      (PyInt 0) = Ok (PyVec acc)
    /\ length acc = 2 * 2
    /\ (forall i, i < 2 * 2 ->
          nth i acc 0%R
          = sum_list (map (fun kv => nth i (loss_vector 1 zeros21 (snd kv)) 0%R)
                        two_modalities))
    /\ Forall (fun kv => loss_joint_mod 1 zeros21 (snd kv)
                         = Ok (loss_vector 1 zeros21 (snd kv)))
         two_modalities
    /\ infonce 1 two_modalities zeros21
       = Ok (Scalar (sum_list acc / INR (2 * 2)))
    /\ sum_list acc = grand_sum 1 two_modalities zeros21.
Proof.
  apply (infonce_mean_of_accumulated_rows 1 2 1 two_modalities zeros21).
  - lia.
  - exact zeros21_shape.
  - exact two_modalities_shape.
  - exact two_modalities_wf.
  - discriminate.
Defined.

(** C3 (as the specification words it) fails: with two modalities and
    B = 2, every per-row loss is [ln 3]; the code returns [2 * ln 3], the
    grand sum [8 * ln 3] over 4, where the specification gives [ln 3], the
    grand sum over 8. *)
Lemma infonce_not_mean_over_all_modalities :
  infonce 1 two_modalities zeros21 = Ok (Scalar (2 * ln 3))
  /\ infonce_spec_mean 1 two_modalities zeros21 = ln 3
  /\ infonce 1 two_modalities zeros21
     <> Ok (Scalar (infonce_spec_mean 1 two_modalities zeros21)).
Proof.
  assert (G : grand_sum 1 two_modalities zeros21 = (8 * ln 3)%R).
  { unfold grand_sum, two_modalities. cbn [map snd].
    rewrite loss_vector_zeros. unfold sum_list. simpl. lra. }
  assert (V : infonce 1 two_modalities zeros21 = Ok (Scalar (2 * ln 3))).
  { rewrite (infonce_value 1 2 1 two_modalities zeros21);
      [| lia | exact zeros21_shape | exact two_modalities_shape
       | exact two_modalities_wf | discriminate].
    rewrite G. replace (INR (2 * 2)) with 4%R by (simpl; lra).
    do 2 f_equal. lra. }
  assert (S : infonce_spec_mean 1 two_modalities zeros21 = ln 3).
  { unfold infonce_spec_mean. rewrite G.
    replace (INR (2 * length zeros21 * length two_modalities)) with 8%R
      by (simpl; lra).
    lra. }
  split; [exact V | split; [exact S|]].
  rewrite V, S. intros E. injection E as E.
  assert (L : (0 < ln 3)%R).
  { rewrite <- ln_1. apply ln_increasing; lra. }
  lra.
Qed.

(** C7: inside [infonce], for B >= 1, the masked similarity matrix has shape
    (2B, 2B - 1); its row [i] is row [i] of the pre-mask matrix with the
    diagonal entry [exp (dot out[i] out[i] / temperature)] deleted, and the
    denominators of the loss are the sums of these rows. *)
Theorem masked_similarity_excludes_diagonal
  (temperature : R) (B D : nat) (joint_z z : matrix) :
  1 <= B -> has_shape B D joint_z -> has_shape B D z ->
  let out := joint_z ++ z in
  let sim := sim_matrix temperature out in
  exists masked,
    masked_sim_matrix temperature joint_z z = Ok masked
    /\ has_shape (2 * B) (2 * B - 1) masked
    /\ loss_joint_mod temperature joint_z z
       = Ok (zip_with (fun p s => (- ln (p / s))%R)
               (pos_sim temperature joint_z z) (sum_dim1 masked))
    /\ forall i, i < 2 * B ->
         nth i (nth i sim []) 0%R
         = exp (dot (nth i out []) (nth i out []) / temperature)
         /\ nth i masked [] = remove_nth i (nth i sim [])
         /\ nth i (sum_dim1 masked) 0%R
            = (sum_list (nth i sim []) - nth i (nth i sim []) 0)%R.
Proof.
  intros HB Hj Hz out sim.
  assert (Hm := masked_sim_matrix_ok temperature B D joint_z z HB Hj Hz).
  fold out in Hm. fold sim in Hm.
  assert (Hout : length out = 2 * B).
  { unfold out. destruct Hj as [Hj _], Hz as [Hz _]. rewrite length_app. lia. }
  destruct (sim_matrix_square temperature out) as [Sl Sw].
  fold sim in Sl, Sw. rewrite Hout in Sl, Sw.
  exists (drop_diag sim). split; [exact Hm|]. split; [|split].
  - split.
    + now rewrite drop_diag_length.
    + now apply drop_diag_width.
  - unfold loss_joint_mod. rewrite Hm. reflexivity.
  - intros i Hi. split; [|split].
    + unfold sim. apply sim_matrix_entry; lia.
    + apply drop_diag_nth. lia.
    + unfold sum_dim1.
      rewrite (nth_map_in _ _ i 0%R []) by (rewrite drop_diag_length; lia).
      rewrite drop_diag_nth by lia.
      assert (Hrow : i < length (nth i sim [])).
      { rewrite Forall_forall in Sw. rewrite (Sw (nth i sim [])); [lia|].
        apply nth_In. lia. }
      rewrite (sum_remove_nth i (nth i sim [])) by assumption. lra.
Qed.

Lemma masked_similarity_excludes_diagonal_witness :
  let out := zeros21 ++ zeros21 in
  let sim := sim_matrix 1 out in
  exists masked,
    masked_sim_matrix 1 zeros21 zeros21 = Ok masked
    /\ has_shape (2 * 2) (2 * 2 - 1) masked
    /\ loss_joint_mod 1 zeros21 zeros21
       = Ok (zip_with (fun p s => (- ln (p / s))%R)
               (pos_sim 1 zeros21 zeros21) (sum_dim1 masked))
    /\ forall i, i < 2 * 2 ->
         nth i (nth i sim []) 0%R
         = exp (dot (nth i out []) (nth i out []) / 1)
         /\ nth i masked [] = remove_nth i (nth i sim [])
         /\ nth i (sum_dim1 masked) 0%R
            = (sum_list (nth i sim []) - nth i (nth i sim []) 0)%R.
Proof.
  apply (masked_similarity_excludes_diagonal 1 2 1 zeros21 zeros21).
  - lia.
  - exact zeros21_shape.
  - exact zeros21_shape.
Defined.

(** C8: for every batch size B >= 1 and every number of modalities >= 1,
    [infonce] returns a 0-dimensional tensor. *)
Theorem infonce_returns_scalar
  (temperature : R) (B D : nat) (modalities_z : dict matrix) (joint_z : matrix) :
  1 <= B -> 1 <= length modalities_z ->
  has_shape B D joint_z ->
  Forall (fun kv => has_shape B D (snd kv)) modalities_z ->
  dict_wf modalities_z ->
  exists loss,
    infonce temperature modalities_z joint_z = Ok loss /\ ndim loss = 0.
Proof.
  intros HB Hn Hj H Hwf.
  assert (Hne : modalities_z <> []).
  { intros ->. simpl in Hn. lia. }
  rewrite (infonce_value temperature B D) by assumption.
  eexists. split; reflexivity.
Qed.

Lemma infonce_returns_scalar_witness :
  exists loss, infonce 1 two_modalities zeros21 = Ok loss /\ ndim loss = 0.
Proof.
  apply (infonce_returns_scalar 1 2 1 two_modalities zeros21).
  - lia.
  - simpl. lia.
  - exact zeros21_shape.
  - exact two_modalities_shape.
  - exact two_modalities_wf.
Defined.

(** ** Construction: the three setters *)

Lemma processor_ok_dec (common : Z) (e : Encoder.t) :
  {processor_ok common e} + {processor_bad common e}.
Proof.
  unfold processor_ok, processor_bad.
  destruct (Encoder.isinstance_BaseEncoder e);
    destruct (Z.eq_dec (Encoder.latent_dim e) common); auto.
Qed.

Lemma processor_ok_not_bad (common : Z) (e : Encoder.t) :
  processor_ok common e -> ~ processor_bad common e.
Proof. intros [H1 H2] [H | H]; congruence. Qed.

Lemma state_eta (s : State) (acc : dict Encoder.t) :
  networks (self s) = Some acc ->
  {| self := with_networks (self s) acc; calls := calls s |} = s.
Proof. destruct s as [[] c]. simpl. now intros ->. Qed.

Lemma dict_set_fresh {V : Type} (d : dict V) (k : string) (v : V) :
  ~ In k (dict_keys d) -> dict_set d k v = d ++ [(k, v)].
Proof.
  induction d as [|[k' v'] d IH]; intros H; simpl in *; auto.
  destruct (String.eqb_spec k k') as [->|_].
  - exfalso. apply H. now left.
  - f_equal. apply IH. intros Hin. apply H. now right.
Qed.

Lemma dict_mem_fresh {V : Type} (d : dict V) (k : string) :
  ~ In k (dict_keys d) -> dict_mem d k = false.
Proof.
  unfold dict_mem.
  induction d as [|[k' v'] d IH]; intros H; simpl in *; auto.
  destruct (String.eqb_spec k k') as [->|_].
  - exfalso. apply H. now left.
  - apply IH. intros Hin. apply H. now right.
Qed.

Lemma dict_lookups {V : Type} (d : dict V) :
  dict_wf d -> forall k v, In (k, v) d -> dict_get d k = Some v.
Proof. intros Hwf k v. now apply dict_get_in. Qed.

(** Registering under a name that is not a module yet. *)
Lemma ModuleDict_setitem_fresh has_attribute d name v :
  ~ In name (dict_keys d) ->
  ModuleDict_setitem has_attribute d name v
  = match module_name_error has_attribute name with
    | Some x => Raise x
    | None => Ok (d ++ [(name, v)])
    end.
Proof.
  intros H. unfold ModuleDict_setitem, module_name_error.
  rewrite (dict_mem_fresh d name H). cbn [negb]. rewrite andb_true_r.
  destruct (has_attribute name); [reflexivity|].
  destruct (contains_dot name); [reflexivity|].
  destruct (String.eqb name EmptyString); [reflexivity|].
  now rewrite dict_set_fresh.
Qed.

Lemma set_networks_body_outcome has_attribute procs m e s acc :
  dict_get procs m = Some e -> networks (self s) = Some acc ->
  ~ In m (dict_keys acc) ->
  set_networks_body has_attribute procs m s
  = match processor_error has_attribute (common_dim (self s)) m e with
    | Some x => (Raise x, s)
    | None => (Ok tt, {| self := with_networks (self s) (acc ++ [(m, e)]);
                         calls := calls s |})
    end.
Proof.
  intros Hget Hnets Hfresh.
  unfold set_networks_body, bind, lift, dict_index, raise, ret, get_self,
    getattr, set_attr_networks, put_self, processor_error.
  rewrite Hget.
  destruct (Encoder.isinstance_BaseEncoder e); cbn [negb fst snd];
    [|reflexivity].
  destruct (Encoder.latent_dim e =? common_dim (self s))%Z; cbn [negb];
    [|reflexivity].
  rewrite Hnets, (ModuleDict_setitem_fresh has_attribute acc m e Hfresh).
  destruct (module_name_error has_attribute m); reflexivity.
Qed.

Lemma accepted_prefix_all has_attribute (common : Z) (procs : dict Encoder.t) :
  first_processor_error has_attribute common procs = None ->
  accepted_prefix has_attribute common procs = procs.
Proof.
  induction procs as [|[m e] procs IH]; cbn; auto.
  destruct (processor_error has_attribute common m e); [discriminate|].
  intros H. now rewrite IH.
Qed.

Lemma set_networks_loop_outcome has_attribute procs kvs : forall s acc,
  (forall k v, In (k, v) kvs -> dict_get procs k = Some v) ->
  NoDup (dict_keys (acc ++ kvs)) ->
  networks (self s) = Some acc ->
  for_each (dict_keys kvs) (set_networks_body has_attribute procs) s
  = (match first_processor_error has_attribute (common_dim (self s)) kvs with
     | Some x => Raise x
     | None => Ok tt
     end,
     {| self := with_networks (self s)
                  (acc ++ accepted_prefix has_attribute
                            (common_dim (self s)) kvs);
        calls := calls s |}).
Proof.
  induction kvs as [|[k v] kvs IH]; intros s acc Hget Hnd Hn.
  - cbn [dict_keys map for_each first_processor_error accepted_prefix].
    unfold ret. now rewrite app_nil_r, state_eta.
  - cbn [dict_keys map fst for_each first_processor_error accepted_prefix].
    assert (Hfresh : ~ In k (dict_keys acc)).
    { unfold dict_keys in *. rewrite map_app in Hnd.
      apply NoDup_remove_2 in Hnd. intros Hin. apply Hnd.
      apply in_or_app. now left. }
    unfold bind at 1.
    rewrite (set_networks_body_outcome has_attribute procs k v s acc)
      by (auto; apply Hget; now left).
    destruct (processor_error has_attribute (common_dim (self s)) k v)
      as [x|].
    + now rewrite app_nil_r, state_eta.
    + fold (dict_keys kvs).
      rewrite (IH _ (acc ++ [(k, v)])).
      * cbn [self calls common_dim with_networks].
        unfold with_networks. cbn. now rewrite <- app_assoc.
      * intros k' v' Hin. apply Hget. now right.
      * now rewrite <- app_assoc.
      * reflexivity.
Qed.

Lemma set_networks_eq has_attribute (procs : dict Encoder.t) (s : State) :
  dict_wf procs ->
  set_networks has_attribute procs s
  = if (Z.of_nat (length procs) =? n_modalities (self s))%Z
    then (match first_processor_error has_attribute (common_dim (self s))
                  procs with
          | Some x => Raise x
          | None => Ok tt
          end,
          {| self := with_networks (self s)
                       (accepted_prefix has_attribute (common_dim (self s))
                          procs);
             calls := calls s |})
    else (Raise (AssertionError msg_count),
          {| self := with_networks (self s) []; calls := calls s |}).
Proof.
  intros Hwf. unfold set_networks. mrun.
  destruct (Z.of_nat (length procs) =? n_modalities (self s))%Z; mrun;
    [|reflexivity].
  rewrite (set_networks_loop_outcome has_attribute procs procs _ []); auto.
  apply dict_lookups, Hwf.
Qed.

Lemma set_joint_encoder_spec je s :
  set_joint_encoder je s
  = if negb (Encoder.isinstance_BaseJointEncoder je)
    then (Raise (AttributeError msg_joint_class), s)
    else if (Encoder.latent_dim je =? common_dim (self s))%Z
         then (Raise (AttributeError msg_joint_dim), s)
         else (Ok tt, {| self := with_joint_encoder (self s) je;
                         calls := calls s |}).
Proof.
  unfold set_joint_encoder, bind, raise, ret, get_self,
    set_attr_joint_encoder, put_self.
  destruct (Encoder.isinstance_BaseJointEncoder je); cbn [negb];
    [|reflexivity].
  destruct (Encoder.latent_dim je =? common_dim (self s))%Z; reflexivity.
Qed.

Lemma set_shared_encoder_spec se s :
  set_shared_encoder se s
  = if negb (Encoder.isinstance_BaseEncoder se)
    then (Raise (AttributeError msg_shared_class), s)
    else if negb (Encoder.latent_dim se =? latent_dim (self s))%Z
         then (Raise (AttributeError
                        (msg_shared_dim (latent_dim (self s))
                           (Encoder.latent_dim se))), s)
         else (Ok tt, {| self := with_shared_encoder (self s) se;
                         calls := calls s |}).
Proof.
  unfold set_shared_encoder, bind, raise, ret, get_self,
    set_attr_shared_encoder, put_self.
  destruct (Encoder.isinstance_BaseEncoder se); cbn [negb];
    [|reflexivity].
  destruct (Encoder.latent_dim se =? latent_dim (self s))%Z; reflexivity.
Qed.

(** ** Construction calls no sub-network *)

Lemma quiet_ret {A : Type} (a : A) : quiet (ret a).
Proof. intros s. reflexivity. Qed.

Lemma quiet_raise {A : Type} (e : exn) : quiet (@raise A e).
Proof. intros s. reflexivity. Qed.

Lemma quiet_lift {A : Type} (r : res A) : quiet (lift r).
Proof. intros s. reflexivity. Qed.

Lemma quiet_get_self : quiet get_self.
Proof. intros s. reflexivity. Qed.

Lemma quiet_put_self (g : GMC) : quiet (put_self g).
Proof. intros s. reflexivity. Qed.

Lemma quiet_getattr {A : Type} (name : string) (proj : GMC -> option A) :
  quiet (getattr name proj).
Proof. intros s. unfold getattr. destruct (proj (self s)); reflexivity. Qed.

Lemma quiet_bind {A B : Type} (c : M A) (k : A -> M B) :
  quiet c -> (forall a, quiet (k a)) -> quiet (bind c k).
Proof.
  intros Hc Hk s. unfold bind. specialize (Hc s).
  destruct (c s) as [[e | a] s'] eqn:E; cbn [snd] in *; [exact Hc|].
  now rewrite Hk.
Qed.

Lemma quiet_for_each {A : Type} (l : list A) (body : A -> M unit) :
  (forall a, quiet (body a)) -> quiet (for_each l body).
Proof.
  intros Hb. induction l as [|a l IH]; cbn [for_each].
  - apply quiet_ret.
  - apply quiet_bind; auto.
Qed.

Ltac quiet_tac :=
  repeat first
    [ apply quiet_ret | apply quiet_raise | apply quiet_lift
    | apply quiet_get_self | apply quiet_put_self | apply quiet_getattr
    | apply quiet_for_each; intros
    | apply quiet_bind; [|intros]
    | match goal with |- quiet (if ?b then _ else _) => destruct b end ].

Lemma quiet_set_networks has_attribute procs :
  quiet (set_networks has_attribute procs).
Proof.
  unfold set_networks, set_networks_body, set_attr_networks. quiet_tac.
Qed.

Lemma quiet_set_joint_encoder je : quiet (set_joint_encoder je).
Proof. unfold set_joint_encoder, set_attr_joint_encoder. quiet_tac. Qed.

Lemma quiet_set_shared_encoder se : quiet (set_shared_encoder se).
Proof. unfold set_shared_encoder, set_attr_shared_encoder. quiet_tac. Qed.

Lemma GMC_init_calls has_attribute cfg procs je se :
  snd (GMC_init has_attribute cfg procs je se) = [].
Proof.
  assert (Q : quiet (init_body has_attribute procs je se)).
  { unfold init_body. apply quiet_bind; [apply quiet_set_networks|].
    intros _. apply quiet_bind; [apply quiet_set_joint_encoder|].
    intros _. apply quiet_set_shared_encoder. }
  unfold GMC_init. specialize (Q {| self := new_GMC cfg; calls := [] |}).
  destruct (init_body has_attribute procs je se
              {| self := new_GMC cfg; calls := [] |}) as [r s'].
  exact Q.
Qed.

(** ** Construction as a whole *)

Lemma joint_check_passes_inv cfg je :
  joint_check_passes cfg je ->
  Encoder.isinstance_BaseJointEncoder je = true
  /\ (Encoder.latent_dim je =? GMCConfig.common_dim cfg)%Z = false.
Proof.
  unfold joint_check_passes. rewrite set_joint_encoder_spec.
  cbn [self new_GMC common_dim].
  destruct (Encoder.isinstance_BaseJointEncoder je); cbn [negb fst];
    [|discriminate].
  destruct (Encoder.latent_dim je =? GMCConfig.common_dim cfg)%Z;
    [discriminate | auto].
Qed.

Lemma GMC_init_validate has_attribute cfg procs je se :
  dict_wf procs ->
  fst (GMC_init has_attribute cfg procs je se)
  = match validate has_attribute cfg procs je se with
    | Some e => Raise e
    | None => Ok (built cfg procs je se)
    end.
Proof.
  intros Hwf. unfold GMC_init, init_body, validate.
  unfold bind at 1. rewrite set_networks_eq by assumption.
  cbn [self calls new_GMC n_modalities common_dim].
  destruct (Z.of_nat (length procs) =? GMCConfig.n_modalities cfg)%Z;
    cbn [negb]; [|reflexivity].
  destruct (first_processor_error has_attribute (GMCConfig.common_dim cfg)
              procs) eqn:F; [reflexivity|].
  rewrite accepted_prefix_all by assumption.
  unfold bind at 1. rewrite set_joint_encoder_spec. mrun.
  cbn [new_GMC common_dim].
  destruct (Encoder.isinstance_BaseJointEncoder je); cbn [negb];
    [|reflexivity].
  destruct (Encoder.latent_dim je =? GMCConfig.common_dim cfg)%Z;
    [reflexivity|].
  rewrite set_shared_encoder_spec. mrun. cbn [new_GMC latent_dim].
  destruct (Encoder.isinstance_BaseEncoder se); cbn [negb]; [|reflexivity].
  destruct (Encoder.latent_dim se =? GMCConfig.embedding_dim cfg)%Z;
    reflexivity.
Qed.

Lemma module_name_error_none has_attribute name :
  module_name_error has_attribute name = None
  <-> module_name_rejected has_attribute name = false.
Proof.
  unfold module_name_error, module_name_rejected.
  destruct (has_attribute name), (contains_dot name),
    (String.eqb name EmptyString); cbn; split; congruence.
Qed.

Lemma processor_error_none has_attribute common m e :
  processor_error has_attribute common m e = None
  <-> processor_ok common e
      /\ module_name_rejected has_attribute m = false.
Proof.
  unfold processor_error, processor_ok.
  rewrite <- module_name_error_none.
  destruct (Encoder.isinstance_BaseEncoder e); cbn [negb].
  - destruct (Z.eqb_spec (Encoder.latent_dim e) common); cbn [negb].
    + tauto.
    + split; [discriminate | tauto].
  - split; [discriminate | intros [[H _] _]; discriminate].
Qed.

Lemma processor_error_class has_attribute common m e x :
  processor_error has_attribute common m e = Some x ->
  (exists msg, x = AttributeError msg) \/ (exists msg, x = KeyError msg).
Proof.
  unfold processor_error, module_name_error.
  destruct (negb (Encoder.isinstance_BaseEncoder e));
    [intros H; injection H as <-; eauto|].
  destruct (negb (Encoder.latent_dim e =? common)%Z);
    [intros H; injection H as <-; eauto|].
  destruct (has_attribute m); [intros H; injection H as <-; eauto|].
  destruct (contains_dot m); [intros H; injection H as <-; eauto|].
  destruct (String.eqb m EmptyString);
    [intros H; injection H as <-; eauto | discriminate].
Qed.

Lemma first_processor_error_none has_attribute common procs :
  first_processor_error has_attribute common procs = None
  <-> Forall (fun kv => processor_ok common (snd kv)
                        /\ module_name_rejected has_attribute (fst kv) = false)
        procs.
Proof.
  induction procs as [|[m e] procs IH]; cbn [first_processor_error].
  - split; [constructor | reflexivity].
  - destruct (processor_error has_attribute common m e) eqn:E.
    + split; [discriminate|]. intros H. inversion H as [|? ? Hh _]; subst.
      cbn [fst snd] in Hh. apply processor_error_none in Hh. congruence.
    + apply processor_error_none in E. rewrite IH. split.
      * intros H. constructor; assumption.
      * intros H. now inversion H.
Qed.

Lemma first_processor_error_class has_attribute common procs x :
  first_processor_error has_attribute common procs = Some x ->
  (exists msg, x = AttributeError msg) \/ (exists msg, x = KeyError msg).
Proof.
  induction procs as [|[m e] procs IH]; cbn [first_processor_error];
    [discriminate|].
  destruct (processor_error has_attribute common m e) eqn:E; [|exact IH].
  intros H. injection H as <-.
  exact (processor_error_class has_attribute common m e _ E).
Qed.

Lemma validate_checks has_attribute cfg procs je se :
  joint_check_passes cfg je ->
  match validate has_attribute cfg procs je se with
  | Some _ => checks_violated has_attribute cfg procs se
  | None => ~ checks_violated has_attribute cfg procs se
  end.
Proof.
  intros Hj. destruct (joint_check_passes_inv cfg je Hj) as [Hj1 Hj2].
  unfold validate, checks_violated. rewrite Hj1, Hj2. cbn [negb].
  destruct (Z.eqb_spec (Z.of_nat (length procs)) (GMCConfig.n_modalities cfg))
    as [Hn | Hn]; cbn [negb]; [|now left].
  destruct (first_processor_error has_attribute (GMCConfig.common_dim cfg)
              procs) eqn:F.
  - right. left.
    assert (G : ~ Forall (fun kv =>
                   processor_ok (GMCConfig.common_dim cfg) (snd kv)
                   /\ module_name_rejected has_attribute (fst kv) = false)
                  procs).
    { rewrite <- first_processor_error_none. congruence. }
    apply neg_Forall_Exists_neg in G.
    + apply Exists_exists in G. destruct G as [kv [Hin Hkv]].
      apply Exists_exists. exists kv. split; [exact Hin|].
      destruct (processor_ok_dec (GMCConfig.common_dim cfg) (snd kv))
        as [Hok | Hbad]; [|now left].
      right. destruct (module_name_rejected has_attribute (fst kv));
        [reflexivity | exfalso; apply Hkv; now split].
    + intros kv.
      destruct (processor_ok_dec (GMCConfig.common_dim cfg) (snd kv))
        as [Hok | Hbad].
      * destruct (module_name_rejected has_attribute (fst kv)) eqn:R.
        -- right. intros [_ H']. discriminate.
        -- left. now split.
      * right. intros [H' _]. now apply (processor_ok_not_bad _ _ H').
  - apply first_processor_error_none in F.
    assert (Hex : ~ Exists (fun kv =>
                     processor_bad (GMCConfig.common_dim cfg) (snd kv)
                     \/ module_name_rejected has_attribute (fst kv) = true)
                    procs).
    { intros Hex. apply Exists_exists in Hex.
      destruct Hex as [kv [Hin Hkv]].
      rewrite Forall_forall in F. destruct (F kv Hin) as [Hok Hname].
      destruct Hkv as [Hbad | Hrej];
        [now apply (processor_ok_not_bad _ _ Hok) | congruence]. }
    destruct (Encoder.isinstance_BaseEncoder se) eqn:Hs; cbn [negb].
    + destruct (Z.eqb_spec (Encoder.latent_dim se)
                  (GMCConfig.embedding_dim cfg)) as [Hd | Hd]; cbn [negb].
      * intros [H | [H | [H | H]]]; try contradiction; congruence.
      * right. right. now right.
    + right. right. now left.
Qed.

Lemma validate_error_class has_attribute cfg procs je se e :
  validate has_attribute cfg procs je se = Some e ->
  e = AssertionError msg_count
  \/ (exists msg, e = AttributeError msg)
  \/ (exists msg, e = KeyError msg).
Proof.
  unfold validate.
  destruct (negb (Z.of_nat (length procs) =? GMCConfig.n_modalities cfg)%Z);
    [intros H; injection H as <-; auto|].
  destruct (first_processor_error has_attribute (GMCConfig.common_dim cfg)
              procs) eqn:F.
  { intros H. injection H as <-. right.
    exact (first_processor_error_class _ _ _ _ F). }
  destruct (negb (Encoder.isinstance_BaseJointEncoder je));
    [intros H; injection H as <-; eauto|].
  destruct (Encoder.latent_dim je =? GMCConfig.common_dim cfg)%Z;
    [intros H; injection H as <-; eauto|].
  destruct (negb (Encoder.isinstance_BaseEncoder se));
    [intros H; injection H as <-; eauto|].
  destruct (negb (Encoder.latent_dim se =? GMCConfig.embedding_dim cfg)%Z);
    [intros H; injection H as <-; eauto | discriminate].
Qed.

Lemma example_processors_wf : dict_wf example_processors.
Proof. unfold dict_wf. simpl. repeat constructor. simpl. tauto. Qed.

Lemma example_joint_passes :
  joint_check_passes example_config (base_joint_encoder 2).
Proof. reflexivity. Qed.

(** ** Claims about construction *)

(** C1 (the code at the failing input): with [common_dim = 1], construction
    raises on a joint encoder whose [latent_dim] is 1 and goes through on one
    whose [latent_dim] is 2. *)
Theorem construction_rejects_matching_joint_dim :
  GMC_init is_ModuleDict_member example_config example_processors
    (base_joint_encoder 1) (base_encoder 1)
  = (Raise (AttributeError msg_joint_dim), [])
  /\ GMC_init is_ModuleDict_member example_config example_processors
       (base_joint_encoder 2) (base_encoder 1)
     = (Ok example_model, []).
Proof. split; reflexivity. Qed.

(** C4 (as the specification words it) fails: a processor that is not a
    [BaseEncoder] makes construction fail although the modality count and
    all declared dimensions agree with the configuration. *)
Lemma construction_fails_beyond_spec_invariants :
  ~ (construction_fails is_ModuleDict_member example_config
       [("a", not_an_encoder 1)] (base_joint_encoder 2) (base_encoder 1)
     <-> spec_invariants_violated example_config [("a", not_an_encoder 1)]
           (base_encoder 1)).
Proof.
  intros [H _].
  assert (F : construction_fails is_ModuleDict_member example_config
                [("a", not_an_encoder 1)]
                (base_joint_encoder 2) (base_encoder 1)).
  { eexists. reflexivity. }
  destruct (H F) as [Hn | [Hex | Hs]].
  - apply Hn. reflexivity.
  - inversion Hex as [? ? Hd | ? ? Hnil]; subst.
    + apply Hd. reflexivity.
    + inversion Hnil.
  - apply Hs. reflexivity.
Qed.

(** C4 (as the code has it): when the joint encoder is let through by its own
    check, construction fails if and only if the number of processors differs
    from [n_modalities], or some processor is not a [BaseEncoder], declares
    a dimension other than [common_dim] or has a name that the [ModuleDict]
    does not take, or the shared encoder is not a [BaseEncoder] or declares a
    dimension other than [latent_dim]; the error is then the
    [AssertionError] of the count, an [AttributeError] or the [KeyError] of
    [add_module].  Otherwise the object holds the configuration and exactly
    the supplied bindings.  No sub-network is called either way. *)
Theorem construction_validation
  (has_attribute : string -> bool)
  (cfg : GMCConfig.t) (procs : dict Encoder.t) (je se : Encoder.t) :
  dict_wf procs -> joint_check_passes cfg je ->
  (construction_fails has_attribute cfg procs je se
   <-> checks_violated has_attribute cfg procs se)
  /\ (~ checks_violated has_attribute cfg procs se ->
      GMC_init has_attribute cfg procs je se
      = (Ok (built cfg procs je se), []))
  /\ (forall e, fst (GMC_init has_attribute cfg procs je se) = Raise e ->
        e = AssertionError msg_count
        \/ (exists msg, e = AttributeError msg)
        \/ (exists msg, e = KeyError msg))
  /\ snd (GMC_init has_attribute cfg procs je se) = [].
Proof.
  intros Hwf Hj.
  assert (V := GMC_init_validate has_attribute cfg procs je se Hwf).
  assert (C := GMC_init_calls has_attribute cfg procs je se).
  assert (N := validate_checks has_attribute cfg procs je se Hj).
  destruct (validate has_attribute cfg procs je se) as [x|] eqn:E.
  - split; [|split; [|split]].
    + split; [intros _; exact N | intros _; now exists x].
    + intros H. contradiction.
    + intros e E'. rewrite V in E'. injection E' as <-.
      exact (validate_error_class _ _ _ _ _ _ E).
    + exact C.
  - split; [|split; [|split]].
    + split; [|intros H; contradiction].
      intros [e E']. rewrite V in E'. discriminate.
    + intros _. rewrite (surjective_pairing (GMC_init _ _ _ _ _)).
      now rewrite V, C.
    + intros e E'. rewrite V in E'. discriminate.
    + exact C.
Qed.

Lemma construction_validation_witness :
  (construction_fails is_ModuleDict_member example_config example_processors
     (base_joint_encoder 2) (base_encoder 1)
   <-> checks_violated is_ModuleDict_member example_config
         example_processors (base_encoder 1))
  /\ (~ checks_violated is_ModuleDict_member example_config
          example_processors (base_encoder 1) ->
      GMC_init is_ModuleDict_member example_config example_processors
        (base_joint_encoder 2) (base_encoder 1)
      = (Ok (built example_config example_processors (base_joint_encoder 2)
               (base_encoder 1)), []))
  /\ (forall e,
        fst (GMC_init is_ModuleDict_member example_config example_processors
               (base_joint_encoder 2) (base_encoder 1)) = Raise e ->
        e = AssertionError msg_count
        \/ (exists msg, e = AttributeError msg)
        \/ (exists msg, e = KeyError msg))
  /\ snd (GMC_init is_ModuleDict_member example_config example_processors
            (base_joint_encoder 2) (base_encoder 1)) = [].
Proof.
  apply (construction_validation is_ModuleDict_member example_config
           example_processors (base_joint_encoder 2) (base_encoder 1)).
  - exact example_processors_wf.
  - exact example_joint_passes.
Defined.

(** ** [encode] *)

Lemma after_calls_nil (s : State) : after_calls s [] = s.
Proof. destruct s. unfold after_calls. simpl. now rewrite app_nil_r. Qed.

Lemma after_calls_app (s : State) (e1 e2 : list Event) :
  after_calls (after_calls s e1) e2 = after_calls s (e1 ++ e2).
Proof. unfold after_calls. simpl. now rewrite app_assoc. Qed.

Lemma dict_get_keys {V : Type} (d : dict V) (k : string) :
  In k (dict_keys d) <-> dict_get d k <> None.
Proof.
  induction d as [|[k' v] d IH]; simpl.
  - split; [contradiction | congruence].
  - destruct (String.eqb_spec k k') as [->|Hne].
    + split; [discriminate | auto].
    + split.
      * intros [E | H]; [now contradiction Hne | now apply IH].
      * intros H. right. now apply IH.
Qed.

Lemma dict_mem_false {V : Type} (d : dict V) (k : string) :
  dict_mem d k = false <-> ~ In k (dict_keys d).
Proof.
  rewrite dict_get_keys. unfold dict_mem.
  destruct (dict_get d k); split; intros H; try discriminate; auto.
  exfalso. apply H. discriminate.
Qed.

Lemma encode_all inputs s je se :
  joint_encoder (self s) = Some je -> shared_encoder (self s) = Some se ->
  encode inputs "all" s
  = match Encoder.forward je (ArgData (data inputs)) with
    | inl w =>
        (Raise (Propagated w),
         after_calls s [Call JointEncoder (ArgData (data inputs))])
    | inr h =>
        (match Encoder.forward se (ArgTensor h) with
         | inl w => Raise (Propagated w)
         | inr z => Ok (NestedOutput (TensorOutput z))
         end,
         after_calls s [Call JointEncoder (ArgData (data inputs));
                        Call SharedEncoder (ArgTensor h)])
    end.
Proof.
  intros Hj Hs. unfold encode. cbn [String.eqb Ascii.eqb Bool.eqb].
  unfold bind, getattr, call, call_output, ret, after_calls. rewrite Hs, Hj.
  destruct (Encoder.forward je (ArgData (data inputs))) as [w | h];
    [reflexivity|].
  cbn [self calls]. rewrite <- app_assoc. cbn [app].
  destruct (Encoder.forward se (ArgTensor h)); reflexivity.
Qed.

Lemma encode_modality inputs s nets se m net :
  networks (self s) = Some nets -> shared_encoder (self s) = Some se ->
  m <> "all" -> dict_get nets m = Some net ->
  encode inputs m s
  = match Encoder.forward net (ArgData (data inputs)) with
    | inl w =>
        (Raise (Propagated w),
         after_calls s [Call (Network m) (ArgData (data inputs))])
    | inr h =>
        (match Encoder.forward se (ArgTensor h) with
         | inl w => Raise (Propagated w)
         | inr z => Ok (NestedOutput (TensorOutput z))
         end,
         after_calls s [Call (Network m) (ArgData (data inputs));
                        Call SharedEncoder (ArgTensor h)])
    end.
Proof.
  intros Hn Hs Hm Hget. unfold encode.
  destruct (String.eqb_spec m "all") as [E | _]; [contradiction|].
  unfold bind at 1. unfold getattr at 1. rewrite Hn.
  unfold dict_mem. rewrite Hget.
  unfold bind, getattr, call, call_output, ret, lift, dict_index,
    after_calls.
  rewrite Hs, Hn, Hget.
  destruct (Encoder.forward net (ArgData (data inputs))) as [w | h];
    [reflexivity|].
  cbn [self calls]. rewrite <- app_assoc. cbn [app].
  destruct (Encoder.forward se (ArgTensor h)); reflexivity.
Qed.

Lemma encode_unknown inputs s nets m :
  networks (self s) = Some nets ->
  m <> "all" -> dict_get nets m = None ->
  encode inputs m s = (Raise (AttributeError msg_cond_mod), s).
Proof.
  intros Hn Hm Hget. unfold encode.
  destruct (String.eqb_spec m "all") as [E | _]; [contradiction|].
  unfold bind, getattr, raise. rewrite Hn.
  unfold dict_mem. now rewrite Hget.
Qed.

(** C6: on a constructed model, [encode] raises the error of line 165 if and
    only if [cond_mod] is neither "all" nor a registered modality name; it
    then leaves the object as it was and has called no sub-network. *)
Theorem encode_invalid_modality
  (s : State) (inputs : MultimodalBaseDataset) (cond_mod : string)
  (nets : dict Encoder.t) (je se : Encoder.t) :
  networks (self s) = Some nets ->
  joint_encoder (self s) = Some je ->
  shared_encoder (self s) = Some se ->
  (fst (encode inputs cond_mod s) = Raise (AttributeError msg_cond_mod)
   <-> cond_mod <> "all" /\ ~ In cond_mod (dict_keys nets))
  /\ (fst (encode inputs cond_mod s) = Raise (AttributeError msg_cond_mod) ->
      snd (encode inputs cond_mod s) = s).
Proof.
  intros Hn Hj Hs.
  destruct (String.eqb_spec cond_mod "all") as [-> | Hne].
  - rewrite (encode_all inputs s je se Hj Hs).
    assert (F : fst (match Encoder.forward je (ArgData (data inputs)) with
               | inl w =>
                   (Raise (Propagated w),
                    after_calls s [Call JointEncoder (ArgData (data inputs))])
               | inr h =>
                   (match Encoder.forward se (ArgTensor h) with
                    | inl w => Raise (Propagated w)
                    | inr z => Ok (NestedOutput (TensorOutput z))
                    end,
                    after_calls s [Call JointEncoder (ArgData (data inputs));
                                   Call SharedEncoder (ArgTensor h)])
               end) <> Raise (AttributeError msg_cond_mod)).
    { destruct (Encoder.forward je (ArgData (data inputs))) as [w | h];
        cbn [fst]; [discriminate|].
      destruct (Encoder.forward se (ArgTensor h)); discriminate. }
    split; [split|]; intros H; try contradiction.
    destruct H as [H _]. now contradiction H.
  - destruct (dict_get nets cond_mod) as [net|] eqn:Hget.
    + rewrite (encode_modality inputs s nets se cond_mod net Hn Hs Hne Hget).
      assert (F : fst (match Encoder.forward net (ArgData (data inputs)) with
                 | inl w =>
                     (Raise (Propagated w),
                      after_calls s
                        [Call (Network cond_mod) (ArgData (data inputs))])
                 | inr h =>
                     (match Encoder.forward se (ArgTensor h) with
                      | inl w => Raise (Propagated w)
                      | inr z => Ok (NestedOutput (TensorOutput z))
                      end,
                      after_calls s
                        [Call (Network cond_mod) (ArgData (data inputs));
                         Call SharedEncoder (ArgTensor h)])
                 end) <> Raise (AttributeError msg_cond_mod)).
      { destruct (Encoder.forward net (ArgData (data inputs))) as [w | h];
          cbn [fst]; [discriminate|].
        destruct (Encoder.forward se (ArgTensor h)); discriminate. }
      split; [split|]; intros H; try contradiction.
      destruct H as [_ H]. exfalso. apply H.
      apply dict_get_keys. congruence.
    + rewrite (encode_unknown inputs s nets cond_mod Hn Hne Hget).
      split; [split|]; auto.
      intros _. split; [exact Hne|].
      rewrite dict_get_keys. intros H. now apply H.
Qed.

Lemma encode_invalid_modality_witness :
  (fst (encode example_inputs "c" example_state)
   = Raise (AttributeError msg_cond_mod)
   <-> "c" <> "all" /\ ~ In "c" (dict_keys example_processors))
  /\ (fst (encode example_inputs "c" example_state)
      = Raise (AttributeError msg_cond_mod) ->
      snd (encode example_inputs "c" example_state) = example_state).
Proof.
  apply (encode_invalid_modality example_state example_inputs "c"
           example_processors (base_joint_encoder 2) (base_encoder 1));
    reflexivity.
Defined.

(** ** [forward] *)







(** [forward] on the batch of the witness above: the registered modality "a"
    is encoded, then indexing [self.networks] with "b" raises. *)
Lemma forward_unregistered_example :
  forward unregistered_inputs example_state
  = (Raise (KeyError "b"),
     after_calls example_state
       [Call (Network "a") (ArgTensor zeros21);
        Call SharedEncoder (ArgTensor zeros21)]).
Proof. reflexivity. Qed.

(** [forward] on a batch whose only modality is registered: four calls, then
    the loss of two zero embeddings against themselves, [ln 3]. *)
Lemma forward_example :
  forward example_inputs example_state
  = (Ok (Scalar (ln 3)),
     after_calls example_state
       [Call (Network "a") (ArgTensor zeros21);
        Call SharedEncoder (ArgTensor zeros21);
        Call JointEncoder (ArgData [("a", zeros21)]);
        Call SharedEncoder (ArgTensor zeros21)]).
Proof.
  assert (I : infonce 1 [("a", zeros21)] zeros21 = Ok (Scalar (ln 3))).
  { rewrite (infonce_value 1 2 1);
      [| lia | exact zeros21_shape | repeat constructor
       | repeat constructor; simpl; tauto | discriminate].
    unfold grand_sum. cbn [map snd]. rewrite loss_vector_zeros.
    replace (INR (2 * 2)) with 4%R by (simpl; lra).
    do 2 f_equal. unfold sum_list. simpl. lra. }
  change (forward example_inputs example_state)
    with (match infonce 1 [("a", zeros21)] zeros21 with
          | inl e => Raise e
          | inr l => Ok l
          end,
          after_calls example_state
            [Call (Network "a") (ArgTensor zeros21);
             Call SharedEncoder (ArgTensor zeros21);
             Call JointEncoder (ArgData [("a", zeros21)]);
             Call SharedEncoder (ArgTensor zeros21)]).
  now rewrite I.
Qed.

(** ** Claims about the routing of [encode] *)

(** What [encode] returns is never a tensor embedding: on both routes the
    [embedding] field holds the [ModelOutput] of the shared head. *)
Lemma encode_returns_nested inputs cond_mod s out :
  fst (encode inputs cond_mod s) = Ok out ->
  exists inner, out = NestedOutput inner.
Proof.
  unfold encode.
  assert (T : forall c h (k : M ModelOutput) s0,
             k = (z <- call_output SharedEncoder c (ArgTensor h) ;;
                  ret (NestedOutput z)) ->
             fst (k s0) = Ok out -> exists inner, out = NestedOutput inner).
  { intros c h k s0 -> . unfold bind, call_output, ret. cbn [fst snd].
    destruct (Encoder.forward c (ArgTensor h)); cbn [fst];
      [discriminate|].
    intros H. injection H as <-. eauto. }
  destruct (String.eqb cond_mod "all").
  - unfold bind at 1. unfold getattr at 1.
    destruct (shared_encoder (self s)) as [se|]; [|discriminate].
    unfold bind at 1. unfold getattr at 1.
    destruct (joint_encoder (self s)) as [je|]; [|discriminate].
    unfold bind at 1. unfold call at 1.
    destruct (Encoder.forward je (ArgData (data inputs))) as [w | h];
      [discriminate|].
    now apply (T se h).
  - unfold bind at 1. unfold getattr at 1.
    destruct (networks (self s)) as [nets|] eqn:Hn; [|discriminate].
    destruct (dict_mem nets cond_mod); [|discriminate].
    unfold bind at 1. unfold getattr at 1.
    destruct (shared_encoder (self s)) as [se|]; [|discriminate].
    unfold bind at 1. unfold getattr at 1. rewrite Hn.
    unfold bind at 1. unfold lift at 1, dict_index at 1.
    destruct (dict_get nets cond_mod) as [net|]; [|discriminate].
    unfold bind at 1. unfold call at 1.
    destruct (Encoder.forward net (ArgData (data inputs))) as [w | h];
      [discriminate|].
    now apply (T se h).
Qed.

(** The "all" selector: the joint encoder runs over the whole mapping, the
    shared head over its output, and what the shared head returns, of one
    row per sample and [latent_dim] columns when the head honours its
    declared dimension, is wrapped once more. *)
Lemma encode_all_routes_and_shape
  (s : State) (inputs : MultimodalBaseDataset) (je se : Encoder.t)
  (h : matrix) (B : nat) :
  joint_encoder (self s) = Some je ->
  shared_encoder (self s) = Some se ->
  Encoder.latent_dim se = latent_dim (self s) ->
  Encoder.forward je (ArgData (data inputs)) = inr h ->
  length h = B ->
  (forall x, exists z,
      Encoder.forward se (ArgTensor x) = inr z
      /\ has_shape (length x) (Z.to_nat (Encoder.latent_dim se)) z) ->
  exists z,
    encode inputs "all" s
    = (Ok (NestedOutput (TensorOutput z)),
       after_calls s [Call JointEncoder (ArgData (data inputs));
                      Call SharedEncoder (ArgTensor h)])
    /\ has_shape B (Z.to_nat (latent_dim (self s))) z.
Proof.
  intros Hj Hs Hd Hh HB Hc.
  destruct (Hc h) as [z [Hz Hshape]].
  exists z. rewrite (encode_all inputs s je se Hj Hs), Hh, Hz.
  split; [reflexivity|]. now rewrite <- Hd, <- HB.
Qed.

(** C2 (the code at the failing input): [encode(inputs, "a")] calls the
    encoder of modality "a" with the whole mapping [inputs.data], which this
    tensor encoder rejects; [forward] on the same batch calls it with the
    tensor [inputs.data["a"]]. *)
Theorem encode_gives_modality_encoder_whole_mapping :
  encode example_inputs "a" example_state
  = (Raise (Propagated "TypeError: expected a Tensor, got dict"),
     after_calls example_state
       [Call (Network "a") (ArgData [("a", zeros21)])])
  /\ dict_get (data example_inputs) "a" = Some zeros21
  /\ calls (snd (forward example_inputs example_state))
     = [Call (Network "a") (ArgTensor zeros21);
        Call SharedEncoder (ArgTensor zeros21);
        Call JointEncoder (ArgData [("a", zeros21)]);
        Call SharedEncoder (ArgTensor zeros21)].
Proof. repeat split; reflexivity. Qed.

(** C5 (the code at the failing input): on the model built from these
    encoders, [encode(inputs, "all")] runs the joint encoder and the shared
    head as claimed, but what it returns holds the [ModelOutput] of the
    shared head where an embedding of shape (batch_size, latent_dim) = (2, 1)
    is claimed: the tensor is one level further down.
    [encode(inputs, "a")] returns nothing at all, and [forward] on the same
    batch does take [.embedding] of the shared head, a tensor, and returns a
    loss. *)
Theorem encode_modality_returns_no_embedding :
  fst (GMC_init is_ModuleDict_member example_config example_processors
         (base_joint_encoder 2) (base_encoder 1)) = Ok example_model
  /\ encode example_inputs "all" example_state
     = (Ok (NestedOutput (TensorOutput zeros21)),
        after_calls example_state
          [Call JointEncoder (ArgData [("a", zeros21)]);
           Call SharedEncoder (ArgTensor zeros21)])
  /\ has_shape 2 (Z.to_nat (latent_dim example_model)) zeros21
  /\ (forall z, fst (encode example_inputs "all" example_state)
                <> Ok (TensorOutput z))
  /\ (forall out, fst (encode example_inputs "a" example_state) <> Ok out)
  /\ exists loss, fst (forward example_inputs example_state) = Ok loss.
Proof.
  split; [reflexivity | split; [reflexivity | split]].
  - split; [reflexivity | repeat constructor].
  - split; [intros z; discriminate | split; [intros out; discriminate|]].
    rewrite forward_example. now eexists.
Qed.

(** * Further properties of [infonce] *)

Lemma dot_comm (u v : vector) : dot u v = dot v u.
Proof.
  unfold dot. revert v.
  induction u as [|x u IH]; intros [|y v]; try reflexivity.
  rewrite !zip_with_cons, !sum_list_cons, IH. lra.
Qed.

Lemma unit_flip_shape : has_shape 2 1 unit21 /\ has_shape 2 1 flip21.
Proof. split; (split; [reflexivity | repeat constructor]). Qed.

Lemma singleton_wf {V : Type} (k : string) (v : V) : dict_wf [(k, v)].
Proof. unfold dict_wf. simpl. repeat constructor. simpl. tauto. Qed.

Lemma loss_joint_mod_empty_joint (temperature : R) (z : matrix) :
  loss_joint_mod temperature [] z = Raise RuntimeError.
Proof.
  unfold loss_joint_mod, masked_sim_matrix, torch_cat. cbn [app length].
  destruct (same_width z); [|reflexivity]. cbn [rbind].
  destruct z as [|r z]; reflexivity.
Qed.

(** X3: on an empty batch (a joint embedding with no row) [infonce] raises a
    [RuntimeError] as soon as there is one modality: the column count of
    [view(0, -1)] cannot be inferred, or the mask does not fit. *)
Theorem infonce_empty_batch_raises
  (temperature : R) (k : string) (z : matrix) (others : dict matrix) :
  infonce temperature ((k, z) :: others) [] = Raise RuntimeError.
Proof.
  unfold infonce. cbn [dict_keys map fst infonce_loop].
  unfold dict_index. cbn [dict_get]. rewrite String.eqb_refl. cbn [rbind].
  now rewrite loss_joint_mod_empty_joint.
Qed.

Lemma same_shape_width_mismatch {A B : Type}
  (a : list (list A)) (b : list (list B)) (n m : nat) :
  a <> [] -> b <> [] ->
  Forall (fun r => length r = n) a -> Forall (fun r => length r = m) b ->
  n <> m -> same_shape a b = false.
Proof.
  intros Ha Hb Fa Fb Hnm.
  destruct a as [|r a]; [congruence|]. destruct b as [|s b]; [congruence|].
  inversion Fa; inversion Fb; subst. cbn [same_shape].
  apply Nat.eqb_neq in Hnm. now rewrite Hnm.
Qed.

Lemma same_width_forces (D D' : nat) (a b : matrix) :
  a <> [] -> b <> [] ->
  Forall (fun r => length r = D) a -> Forall (fun r => length r = D') b ->
  same_width (a ++ b) = true -> D' = D.
Proof.
  intros Ha Hb Fa Fb W.
  destruct a as [|r a]; [congruence|]. destruct b as [|s b]; [congruence|].
  inversion Fa; inversion Fb; subst.
  cbn [app same_width] in W. rewrite forallb_forall in W.
  specialize (W s). apply Nat.eqb_eq. apply W.
  apply in_or_app. right. now left.
Qed.

Lemma loss_joint_mod_mismatch
  (temperature : R) (B D B' D' : nat) (joint_z z : matrix) :
  1 <= B -> has_shape B D joint_z -> has_shape B' D' z ->
  B' <> B \/ D' <> D ->
  loss_joint_mod temperature joint_z z = Raise RuntimeError.
Proof.
  intros HB [Hj Hjw] [Hz Hzw] Hne.
  unfold loss_joint_mod, masked_sim_matrix, torch_cat.
  destruct (same_width (joint_z ++ z)) eqn:W; [|reflexivity].
  cbn [rbind].
  assert (HB' : B' <> B).
  { destruct Hne as [H | H]; [exact H|]. intros E. apply H.
    apply (same_width_forces D D' joint_z z); auto.
    - intros ->. simpl in Hj. lia.
    - intros ->. simpl in Hz. lia. }
  destruct (sim_matrix_square temperature (joint_z ++ z)) as [Sl Sw].
  unfold mask_joint_mod, tensor_sub.
  rewrite (same_shape_width_mismatch _ _ (length (joint_z ++ z)) (2 * B)).
  - reflexivity.
  - intros E. apply (f_equal (@length _)) in E.
    unfold ones_like in E. rewrite length_map, Sl, length_app in E.
    simpl in E. lia.
  - intros E. apply (f_equal (@length _)) in E.
    unfold eye in E. rewrite length_map, length_seq, Hj in E.
    simpl in E. lia.
  - unfold ones_like. apply Forall_forall. intros r Hr.
    apply in_map_iff in Hr. destruct Hr as [r' [<- Hr']].
    rewrite length_map. rewrite Forall_forall in Sw. now apply Sw.
  - rewrite Hj. unfold eye. apply Forall_forall. intros r Hr.
    apply in_map_iff in Hr. destruct Hr as [i [<- _]].
    now rewrite length_map, length_seq.
  - rewrite length_app. lia.
Qed.

Lemma infonce_loop_prefix temperature (B D : nat) modalities_z joint_z ks kvs :
  forall acc,
  1 <= B -> has_shape B D joint_z ->
  Forall (fun kv => has_shape B D (snd kv)) kvs ->
  (forall k v, In (k, v) kvs -> dict_get modalities_z k = Some v) ->
  acc_ok B acc ->
  exists acc',
    acc_ok B acc'
    /\ infonce_loop temperature modalities_z joint_z (dict_keys kvs ++ ks) acc
       = infonce_loop temperature modalities_z joint_z ks acc'.
Proof.
  induction kvs as [|[k v] kvs IH]; intros acc HB Hj H Hget Hacc.
  - exists acc. split; [exact Hacc | reflexivity].
  - inversion H as [|? ? Hv Hkvs]; subst. cbn [snd] in Hv.
    cbn [dict_keys map fst app infonce_loop]. unfold dict_index.
    rewrite (Hget k v) by (left; reflexivity). cbn [rbind].
    rewrite (loss_joint_mod_ok temperature B D) by assumption. cbn [rbind].
    assert (Hl : length (loss_vector temperature joint_z v) = 2 * B)
      by now apply (loss_vector_length temperature B D).
    assert (Hadd : exists a, acc_ok B a
                     /\ iadd acc (loss_vector temperature joint_z v) = Ok a).
    { destruct acc as [n | a]; cbn [iadd].
      - eexists. split; [|reflexivity]. cbn [acc_ok]. now rewrite length_map.
      - cbn [acc_ok] in Hacc. rewrite Hacc, Hl, Nat.eqb_refl.
        eexists. split; [|reflexivity]. cbn [acc_ok].
        rewrite zip_with_length; congruence. }
    destruct Hadd as [a [Ha Ea]]. rewrite Ea. cbn [rbind].
    fold (dict_keys kvs).
    apply IH; auto. intros k' v' Hin. apply Hget. now right.
Qed.

(** X4: when the embedding of some modality does not have the shape of the
    joint embedding (another batch size or another width), [infonce] raises
    a [RuntimeError], whatever comes after it in the mapping. *)
Theorem infonce_shape_mismatch_raises
  (temperature : R) (B D B' D' : nat) (joint_z z : matrix) (k : string)
  (pre post : dict matrix) :
  1 <= B -> has_shape B D joint_z ->
  dict_wf (pre ++ (k, z) :: post) ->
  Forall (fun kv => has_shape B D (snd kv)) pre ->
  has_shape B' D' z -> B' <> B \/ D' <> D ->
  infonce temperature (pre ++ (k, z) :: post) joint_z = Raise RuntimeError.
Proof.
  intros HB Hj Hwf Hpre Hz Hne.
  set (mods := pre ++ (k, z) :: post) in *.
  assert (Hget : forall k' v', In (k', v') mods ->
                               dict_get mods k' = Some v')
    by (intros k' v'; now apply dict_get_in).
  unfold infonce.
  replace (dict_keys mods) with (dict_keys pre ++ k :: dict_keys post)
    by (unfold mods, dict_keys; now rewrite map_app).
  destruct (infonce_loop_prefix temperature B D mods joint_z
              (k :: dict_keys post) pre (PyInt 0)) as [acc [_ E]]; auto.
  { intros k' v' Hin. apply Hget. unfold mods. apply in_or_app. now left. }
  { exact I. }
  rewrite E. cbn [infonce_loop]. unfold dict_index.
  rewrite (Hget k z) by (unfold mods; apply in_or_app; right; now left).
  cbn [rbind].
  now rewrite (loss_joint_mod_mismatch temperature B D B' D').
Qed.

Lemma infonce_shape_mismatch_raises_witness :
  infonce 1 ([("a", unit21)] ++ ("b", [[1%R]]) :: []) unit21
  = Raise RuntimeError.
Proof.
  apply (infonce_shape_mismatch_raises 1 2 1 1 1 unit21 [[1%R]] "b"
           [("a", unit21)] []).
  - lia.
  - exact (proj1 unit_flip_shape).
  - unfold dict_wf. simpl. repeat constructor; simpl; intuition discriminate.
  - constructor; [exact (proj1 unit_flip_shape) | constructor].
  - split; [reflexivity | repeat constructor].
  - left. lia.
Defined.

Lemma sum_list_map_div (c : R) {A : Type} (f : A -> R) (l : list A) :
  sum_list (map (fun x => (f x / c)%R) l) = (sum_list (map f l) / c)%R.
Proof.
  induction l as [|x l IH]; cbn [map].
  - unfold sum_list, Rdiv. simpl. now rewrite Rmult_0_l.
  - rewrite !sum_list_cons, IH. unfold Rdiv.
    now rewrite Rmult_plus_distr_r.
Qed.

(** X5: the loss is additive over the modalities (exact arithmetic): the
    value of [infonce] on several modalities is the sum of its values on
    each modality alone. *)
Theorem infonce_additive_over_modalities
  (temperature : R) (B D : nat) (modalities_z : dict matrix) (joint_z : matrix) :
  1 <= B -> has_shape B D joint_z ->
  Forall (fun kv => has_shape B D (snd kv)) modalities_z ->
  dict_wf modalities_z -> modalities_z <> [] ->
  exists losses : list R,
    Forall2 (fun kv l => infonce temperature [kv] joint_z = Ok (Scalar l))
      modalities_z losses
    /\ infonce temperature modalities_z joint_z
       = Ok (Scalar (sum_list losses)).
Proof.
  intros HB Hj H Hwf Hne.
  exists (map (fun kv => (sum_list (loss_vector temperature joint_z (snd kv))
                          / INR (2 * B))%R) modalities_z).
  split.
  - clear Hwf Hne. induction H as [|[k v] kvs Hv _ IH]; constructor; auto.
    rewrite (infonce_value temperature B D); auto.
    + unfold grand_sum. cbn [map snd]. rewrite sum_list_cons.
      unfold sum_list at 2. cbn [fold_right]. now rewrite Rplus_0_r.
    + apply singleton_wf.
    + discriminate.
  - rewrite (infonce_value temperature B D) by assumption.
    now rewrite sum_list_map_div.
Qed.

Lemma infonce_additive_over_modalities_witness :
  exists losses : list R,
    Forall2 (fun kv l => infonce 1 [kv] zeros21 = Ok (Scalar l))
      two_modalities losses
    /\ infonce 1 two_modalities zeros21 = Ok (Scalar (sum_list losses)).
Proof.
  apply (infonce_additive_over_modalities 1 2 1 two_modalities zeros21).
  - lia.
  - exact zeros21_shape.
  - exact two_modalities_shape.
  - exact two_modalities_wf.
  - discriminate.
Defined.

Lemma grand_sum_perm temperature (m m' : dict matrix) joint_z :
  Permutation m m' ->
  grand_sum temperature m joint_z = grand_sum temperature m' joint_z.
Proof.
  unfold grand_sum.
  induction 1 as [| x l l' _ IH | x y l | l l' l'' _ IH1 _ IH2];
    cbn [map]; rewrite ?sum_list_cons.
  - reflexivity.
  - now rewrite IH.
  - lra.
  - now rewrite IH1.
Qed.

(** X6: the order of the modalities in the mapping does not change the loss
    (exact arithmetic). *)
Theorem infonce_order_of_modalities
  (temperature : R) (B D : nat) (modalities_z modalities_z' : dict matrix)
  (joint_z : matrix) :
  1 <= B -> has_shape B D joint_z ->
  Forall (fun kv => has_shape B D (snd kv)) modalities_z ->
  dict_wf modalities_z -> modalities_z <> [] ->
  Permutation modalities_z modalities_z' ->
  infonce temperature modalities_z' joint_z
  = infonce temperature modalities_z joint_z.
Proof.
  intros HB Hj H Hwf Hne Hp.
  rewrite (infonce_value temperature B D modalities_z) by assumption.
  rewrite (infonce_value temperature B D modalities_z'); auto.
  - now rewrite (grand_sum_perm temperature _ _ joint_z Hp).
  - now apply (Permutation_Forall Hp).
  - unfold dict_wf, dict_keys in *.
    apply (Permutation_NoDup (Permutation_map fst Hp) Hwf).
  - intros ->. apply Permutation_sym, Permutation_nil in Hp. congruence.
Qed.

Lemma infonce_order_of_modalities_witness :
  infonce 1 [("b", flip21); ("a", unit21)] unit21
  = infonce 1 [("a", unit21); ("b", flip21)] unit21.
Proof.
  apply (infonce_order_of_modalities 1 2 1).
  - lia.
  - exact (proj1 unit_flip_shape).
  - constructor; [exact (proj1 unit_flip_shape)|].
    constructor; [exact (proj2 unit_flip_shape) | constructor].
  - unfold dict_wf. simpl. repeat constructor; simpl; intuition discriminate.
  - discriminate.
  - apply perm_swap.
Defined.

(** * Further properties of construction *)

(** X7: construction never calls a sub-network, whatever it is given and
    whether it succeeds or raises. *)
Theorem construction_calls_no_network
  (has_attribute : string -> bool)
  (cfg : GMCConfig.t) (procs : dict Encoder.t) (je se : Encoder.t) :
  snd (GMC_init has_attribute cfg procs je se) = [].
Proof. exact (GMC_init_calls has_attribute cfg procs je se). Qed.

(** Modality names that the [ModuleDict] does not take: an attribute of it,
    a dotted name, the empty name.  The processors pass the checks of lines
    48-56, and the assignment of line 57 raises. *)
Lemma construction_rejects_module_names :
  GMC_init is_ModuleDict_member example_config [("keys", base_encoder 1)]
    (base_joint_encoder 2) (base_encoder 1)
  = (Raise (KeyError "attribute 'keys' already exists"), [])
  /\ (exists msg,
        GMC_init is_ModuleDict_member example_config
          [("a.b", base_encoder 1)] (base_joint_encoder 2) (base_encoder 1)
        = (Raise (KeyError msg), []))
  /\ (exists msg,
        GMC_init is_ModuleDict_member example_config
          [(EmptyString, base_encoder 1)] (base_joint_encoder 2)
          (base_encoder 1)
        = (Raise (KeyError msg), [])).
Proof.
  split; [reflexivity | split; eexists; reflexivity].
Qed.

(** X8: a call to [set_networks], on a new object or on one that has
    networks already, first forgets the registered networks.  If the count
    differs from [n_modalities] it raises the [AssertionError] and none is
    registered; otherwise it registers the processors in order up to the
    first one that is not a [BaseEncoder], declares another dimension than
    [common_dim], or has a name that the [ModuleDict] does not take (an
    attribute of it, a dotted name, the empty name); it raises the error of
    that one, an [AttributeError] or the [KeyError] of [add_module], the
    earlier ones staying registered; when all pass, exactly the supplied
    ones are registered.  Nothing else of the object changes. *)
Theorem set_networks_outcome
  (has_attribute : string -> bool) (procs : dict Encoder.t) (s : State) :
  dict_wf procs ->
  set_networks has_attribute procs s
  = if (Z.of_nat (length procs) =? n_modalities (self s))%Z
    then (match first_processor_error has_attribute (common_dim (self s))
                  procs with
          | Some x => Raise x
          | None => Ok tt
          end,
          {| self := with_networks (self s)
                       (accepted_prefix has_attribute (common_dim (self s))
                          procs);
             calls := calls s |})
    else (Raise (AssertionError msg_count),
          {| self := with_networks (self s) []; calls := calls s |}).
Proof. exact (set_networks_eq has_attribute procs s). Qed.

Lemma set_networks_outcome_witness :
  set_networks is_ModuleDict_member example_processors example_state
  = if (Z.of_nat (length example_processors)
        =? n_modalities (self example_state))%Z
    then (match first_processor_error is_ModuleDict_member
                  (common_dim (self example_state)) example_processors with
          | Some x => Raise x
          | None => Ok tt
          end,
          {| self := with_networks (self example_state)
                       (accepted_prefix is_ModuleDict_member
                          (common_dim (self example_state))
                          example_processors);
             calls := calls example_state |})
    else (Raise (AssertionError msg_count),
          {| self := with_networks (self example_state) [];
             calls := calls example_state |}).
Proof.
  apply (set_networks_outcome is_ModuleDict_member example_processors
           example_state).
  exact example_processors_wf.
Defined.

(** X9: the outcome of construction is that of its checks made in the order
    count, processors in order (class, dimension, then the name as
    [add_module] tests it), joint encoder (class, then the test of line 71
    as written), shared encoder (class, then dimension): the error of the
    first check that fails, and the object with exactly the supplied bindings
    when none does. *)
Theorem construction_outcome
  (has_attribute : string -> bool)
  (cfg : GMCConfig.t) (procs : dict Encoder.t) (je se : Encoder.t) :
  dict_wf procs ->
  fst (GMC_init has_attribute cfg procs je se)
  = match validate has_attribute cfg procs je se with
    | Some e => Raise e
    | None => Ok (built cfg procs je se)
    end.
Proof. exact (GMC_init_validate has_attribute cfg procs je se). Qed.

Lemma construction_outcome_witness :
  fst (GMC_init is_ModuleDict_member example_config
         [("keys", base_encoder 1)] (base_joint_encoder 1)
         (not_an_encoder 1))
  = match validate is_ModuleDict_member example_config
            [("keys", base_encoder 1)] (base_joint_encoder 1)
            (not_an_encoder 1) with
    | Some e => Raise e
    | None => Ok (built example_config [("keys", base_encoder 1)]
                    (base_joint_encoder 1) (not_an_encoder 1))
    end.
Proof.
  apply (construction_outcome is_ModuleDict_member example_config
           [("keys", base_encoder 1)] (base_joint_encoder 1)
           (not_an_encoder 1)).
  apply singleton_wf.
Defined.

(** X10: every object that construction returns holds the configuration and
    exactly the supplied bindings, has as many networks as [n_modalities],
    all of them [BaseEncoder]s of dimension [common_dim], a shared encoder
    that is a [BaseEncoder] of dimension [latent_dim], and a joint encoder
    that is a [BaseJointEncoder] whose dimension, by the test of line 71 as
    written, differs from [common_dim]; every modality name is one that the
    [ModuleDict] takes. *)
Theorem constructed_model_invariants
  (has_attribute : string -> bool)
  (cfg : GMCConfig.t) (procs : dict Encoder.t) (je se : Encoder.t) (g : GMC) :
  dict_wf procs ->
  fst (GMC_init has_attribute cfg procs je se) = Ok g ->
  g = built cfg procs je se
  /\ networks g = Some procs
  /\ joint_encoder g = Some je
  /\ shared_encoder g = Some se
  /\ Z.of_nat (length procs) = n_modalities g
  /\ Forall (fun kv => processor_ok (common_dim g) (snd kv)) procs
  /\ processor_ok (latent_dim g) se
  /\ Encoder.isinstance_BaseJointEncoder je = true
  /\ Encoder.latent_dim je <> common_dim g
  /\ Forall (fun kv => module_name_rejected has_attribute (fst kv) = false)
       procs.
Proof.
  intros Hwf E. rewrite GMC_init_validate in E by assumption.
  unfold validate in E.
  destruct (Z.eqb_spec (Z.of_nat (length procs)) (GMCConfig.n_modalities cfg))
    as [Hn | Hn]; cbn [negb] in E; [|discriminate].
  destruct (first_processor_error has_attribute (GMCConfig.common_dim cfg)
              procs) eqn:F; [discriminate|].
  destruct (Encoder.isinstance_BaseJointEncoder je) eqn:Hj; cbn [negb] in E;
    [|discriminate].
  destruct (Z.eqb_spec (Encoder.latent_dim je) (GMCConfig.common_dim cfg))
    as [Hjd | Hjd]; [discriminate|].
  destruct (Encoder.isinstance_BaseEncoder se) eqn:Hs; cbn [negb] in E;
    [|discriminate].
  destruct (Z.eqb_spec (Encoder.latent_dim se) (GMCConfig.embedding_dim cfg))
    as [Hsd | Hsd]; cbn [negb] in E; [|discriminate].
  injection E as <-.
  apply first_processor_error_none in F.
  repeat split; auto.
  - apply (Forall_impl _ (P := fun kv =>
             processor_ok (GMCConfig.common_dim cfg) (snd kv)
             /\ module_name_rejected has_attribute (fst kv) = false));
      [|exact F].
    intros kv H. apply H.
  - apply (Forall_impl _ (P := fun kv =>
             processor_ok (GMCConfig.common_dim cfg) (snd kv)
             /\ module_name_rejected has_attribute (fst kv) = false));
      [|exact F].
    intros kv H. apply H.
Qed.

Lemma constructed_model_invariants_witness :
  example_model = built example_config example_processors
                    (base_joint_encoder 2) (base_encoder 1)
  /\ networks example_model = Some example_processors
  /\ joint_encoder example_model = Some (base_joint_encoder 2)
  /\ shared_encoder example_model = Some (base_encoder 1)
  /\ Z.of_nat (length example_processors) = n_modalities example_model
  /\ Forall (fun kv => processor_ok (common_dim example_model) (snd kv))
       example_processors
  /\ processor_ok (latent_dim example_model) (base_encoder 1)
  /\ Encoder.isinstance_BaseJointEncoder (base_joint_encoder 2) = true
  /\ Encoder.latent_dim (base_joint_encoder 2) <> common_dim example_model
  /\ Forall (fun kv =>
               module_name_rejected is_ModuleDict_member (fst kv) = false)
       example_processors.
Proof.
  apply (constructed_model_invariants is_ModuleDict_member example_config
           example_processors (base_joint_encoder 2) (base_encoder 1)
           example_model).
  - exact example_processors_wf.
  - reflexivity.
Defined.

(** * Further properties of [encode] and [forward] *)

(** X11: [encode(inputs, "all")] never runs a modality encoder, even on a
    model one of whose modalities is named "all": it calls at most the joint
    encoder and the shared head, and what it returns is the output of the
    shared head on the joint encoder's output on the whole mapping, wrapped
    twice: the [ModelOutput] of the shared head is stored as it is in the
    [embedding] field of the result (line 160). *)
Theorem encode_all_never_selects_a_modality
  (s : State) (inputs : MultimodalBaseDataset) (je se : Encoder.t) :
  joint_encoder (self s) = Some je ->
  shared_encoder (self s) = Some se ->
  exists evs,
    snd (encode inputs "all" s) = after_calls s evs
    /\ existsb is_network_call evs = false
    /\ length evs <= 2
    /\ forall out,
         fst (encode inputs "all" s) = Ok out ->
         exists h z,
           Encoder.forward je (ArgData (data inputs)) = inr h
           /\ Encoder.forward se (ArgTensor h) = inr z
           /\ out = NestedOutput (TensorOutput z)
           /\ evs = [Call JointEncoder (ArgData (data inputs));
                     Call SharedEncoder (ArgTensor h)].
Proof.
  intros Hj Hs. rewrite (encode_all inputs s je se Hj Hs).
  destruct (Encoder.forward je (ArgData (data inputs))) as [w | h].
  - eexists. split; [reflexivity|]. split; [reflexivity|].
    split; [simpl; lia|]. intros out E. discriminate.
  - eexists. split; [reflexivity|]. split; [reflexivity|].
    split; [simpl; lia|]. intros out E. cbn [fst] in E.
    exists h. destruct (Encoder.forward se (ArgTensor h)) as [w | z];
      [discriminate|].
    exists z. injection E as <-. auto.
Qed.

Lemma encode_all_never_selects_a_modality_witness :
  exists evs,
    snd (encode example_inputs "all" all_named_state)
    = after_calls all_named_state evs
    /\ existsb is_network_call evs = false
    /\ length evs <= 2
    /\ forall out,
         fst (encode example_inputs "all" all_named_state) = Ok out ->
         exists h z,
           Encoder.forward (base_joint_encoder 2)
             (ArgData (data example_inputs)) = inr h
           /\ Encoder.forward (base_encoder 1) (ArgTensor h) = inr z
           /\ out = NestedOutput (TensorOutput z)
           /\ evs = [Call JointEncoder (ArgData (data example_inputs));
                     Call SharedEncoder (ArgTensor h)].
Proof.
  apply (encode_all_never_selects_a_modality all_named_state example_inputs
           (base_joint_encoder 2) (base_encoder 1)); reflexivity.
Defined.

Lemma dict_keys_app {V : Type} (a b : dict V) :
  dict_keys (a ++ b) = dict_keys a ++ dict_keys b.
Proof. unfold dict_keys. apply map_app. Qed.

Lemma forward_loop_ok inputs nets se kvs hzs :
  modality_outputs nets se kvs hzs ->
  forall acc s,
  networks (self s) = Some nets ->
  shared_encoder (self s) = Some se ->
  (forall k x, In (k, x) kvs -> dict_get (data inputs) k = Some x) ->
  NoDup (dict_keys acc ++ dict_keys kvs) ->
  forward_loop inputs (dict_keys kvs) acc s
  = (Ok (acc ++ modality_embeddings kvs hzs),
     after_calls s (modality_calls kvs hzs)).
Proof.
  unfold modality_outputs.
  induction 1 as [|[k x] [h z] kvs hzs [net [Hk [Hh Hz]]] _ IH];
    intros acc s Hn Hs Hdata Hnd.
  - cbn [dict_keys map forward_loop]. unfold ret.
    unfold modality_embeddings, modality_calls. cbn [combine map flat_map].
    now rewrite app_nil_r, after_calls_nil.
  - cbn [fst snd] in Hk, Hh, Hz.
    cbn [dict_keys map fst forward_loop].
    unfold bind at 1. unfold getattr at 1. rewrite Hn.
    unfold bind at 1. unfold lift at 1, dict_index at 1. rewrite Hk.
    unfold bind at 1. unfold lift at 1, dict_index at 1.
    rewrite (Hdata k x) by now left.
    unfold bind at 1. unfold call at 1. rewrite Hh.
    fold (after_calls s [Call (Network k) (ArgTensor x)]).
    set (s1 := after_calls s [Call (Network k) (ArgTensor x)]).
    assert (Hs1 : shared_encoder (self s1) = Some se) by exact Hs.
    unfold bind at 1. unfold getattr at 1. rewrite Hs1.
    unfold bind at 1. unfold call at 1. rewrite Hz.
    fold (after_calls s1 [Call SharedEncoder (ArgTensor h)]).
    unfold s1. rewrite after_calls_app. cbn [app]. clear s1 Hs1.
    assert (Hfresh : ~ In k (dict_keys acc)).
    { cbn [dict_keys map fst] in Hnd. apply NoDup_remove_2 in Hnd.
      intros Hin. apply Hnd. apply in_or_app. now left. }
    rewrite dict_set_fresh by assumption.
    fold (dict_keys kvs).
    rewrite IH.
    + rewrite after_calls_app. rewrite <- app_assoc. reflexivity.
    + exact Hn.
    + exact Hs.
    + intros k' x' Hin. apply Hdata. now right.
    + rewrite dict_keys_app. cbn [dict_keys map fst] in *.
      now rewrite <- app_assoc.
Qed.

Lemma forward_ok (s : State) (inputs : MultimodalBaseDataset)
  (nets : dict Encoder.t) (je se : Encoder.t)
  (hzs : list (matrix * matrix)) (joint_h joint_z : matrix) :
  networks (self s) = Some nets ->
  joint_encoder (self s) = Some je ->
  shared_encoder (self s) = Some se ->
  dict_wf (data inputs) ->
  modality_outputs nets se (data inputs) hzs ->
  Encoder.forward je (ArgData (data inputs)) = inr joint_h ->
  Encoder.forward se (ArgTensor joint_h) = inr joint_z ->
  forward inputs s
  = (infonce (temperature (self s))
       (modality_embeddings (data inputs) hzs) joint_z,
     after_calls s
       (modality_calls (data inputs) hzs
        ++ [Call JointEncoder (ArgData (data inputs));
            Call SharedEncoder (ArgTensor joint_h)])).
Proof.
  intros Hn Hj Hs Hwf Hout Hjh Hjz.
  unfold forward. unfold bind at 1. unfold iter_inputs.
  rewrite (forward_loop_ok inputs nets se (data inputs) hzs Hout [] s);
    auto; [|now apply dict_lookups].
  cbn [app].
  set (s1 := after_calls s (modality_calls (data inputs) hzs)).
  assert (Hj1 : joint_encoder (self s1) = Some je) by exact Hj.
  unfold bind at 1. unfold getattr at 1. rewrite Hj1.
  unfold bind at 1. unfold call at 1. rewrite Hjh.
  fold (after_calls s1 [Call JointEncoder (ArgData (data inputs))]).
  set (s2 := after_calls s1 [Call JointEncoder (ArgData (data inputs))]).
  assert (Hs2 : shared_encoder (self s2) = Some se) by exact Hs.
  unfold bind at 1. unfold getattr at 1. rewrite Hs2.
  unfold bind at 1. unfold call at 1. rewrite Hjz.
  fold (after_calls s2 [Call SharedEncoder (ArgTensor joint_h)]).
  unfold s2, s1. rewrite !after_calls_app. cbn [app].
  unfold bind, get_self, lift, ret. cbn [self after_calls].
  destruct (infonce (temperature (self s))
              (modality_embeddings (data inputs) hzs) joint_z);
    reflexivity.
Qed.

(** X12: when every modality of the batch is registered and the sub-networks
    return, [forward] calls, for each modality in the order of the batch,
    its encoder on its tensor and the shared head on the result, then the
    joint encoder on the whole mapping and the shared head on the result,
    and returns what [infonce] gives on these embeddings with the model's
    temperature.  Registered modalities absent from the batch are not
    missed, and the object is left as it was. *)
Theorem forward_composes
  (s : State) (inputs : MultimodalBaseDataset)
  (nets : dict Encoder.t) (je se : Encoder.t)
  (hzs : list (matrix * matrix)) (joint_h joint_z : matrix) :
  networks (self s) = Some nets ->
  joint_encoder (self s) = Some je ->
  shared_encoder (self s) = Some se ->
  dict_wf (data inputs) ->
  modality_outputs nets se (data inputs) hzs ->
  Encoder.forward je (ArgData (data inputs)) = inr joint_h ->
  Encoder.forward se (ArgTensor joint_h) = inr joint_z ->
  forward inputs s
  = (infonce (temperature (self s))
       (modality_embeddings (data inputs) hzs) joint_z,
     after_calls s
       (modality_calls (data inputs) hzs
        ++ [Call JointEncoder (ArgData (data inputs));
            Call SharedEncoder (ArgTensor joint_h)])).
Proof. exact (forward_ok s inputs nets je se hzs joint_h joint_z). Qed.

Lemma example_inputs_wf : dict_wf (data example_inputs).
Proof. apply singleton_wf. Qed.

Lemma forward_composes_witness :
  forward example_inputs example_state
  = (infonce (temperature (self example_state))
       (modality_embeddings (data example_inputs) [(zeros21, zeros21)])
       zeros21,
     after_calls example_state
       (modality_calls (data example_inputs) [(zeros21, zeros21)]
        ++ [Call JointEncoder (ArgData (data example_inputs));
            Call SharedEncoder (ArgTensor zeros21)])).
Proof.
  apply (forward_composes example_state example_inputs example_processors
           (base_joint_encoder 2) (base_encoder 1)).
  - reflexivity.
  - reflexivity.
  - reflexivity.
  - exact example_inputs_wf.
  - constructor; [|constructor].
    exists (base_encoder 1). repeat split; reflexivity.
  - reflexivity.
  - reflexivity.
Defined.

(** X13: on a batch with no modality at all [forward] calls the joint
    encoder and the shared head and then raises the [TypeError] of
    [torch.mean]: the accumulator of [infonce] is still the integer 0. *)
Theorem forward_empty_batch_raises
  (s : State) (inputs : MultimodalBaseDataset)
  (nets : dict Encoder.t) (je se : Encoder.t) (joint_h joint_z : matrix) :
  networks (self s) = Some nets ->
  joint_encoder (self s) = Some je ->
  shared_encoder (self s) = Some se ->
  data inputs = [] ->
  Encoder.forward je (ArgData []) = inr joint_h ->
  Encoder.forward se (ArgTensor joint_h) = inr joint_z ->
  exists msg,
    forward inputs s
    = (Raise (TypeError msg),
       after_calls s [Call JointEncoder (ArgData []);
                      Call SharedEncoder (ArgTensor joint_h)]).
Proof.
  intros Hn Hj Hs Hd Hjh Hjz.
  rewrite (forward_ok s inputs nets je se [] joint_h joint_z); auto.
  - rewrite Hd. eexists. reflexivity.
  - rewrite Hd. unfold dict_wf. constructor.
  - rewrite Hd. constructor.
  - now rewrite Hd.
Qed.

Lemma forward_empty_batch_raises_witness :
  exists msg,
    forward empty_inputs constant_joint_state
    = (Raise (TypeError msg),
       after_calls constant_joint_state
         [Call JointEncoder (ArgData []);
          Call SharedEncoder (ArgTensor zeros21)]).
Proof.
  apply (forward_empty_batch_raises constant_joint_state empty_inputs
           example_processors constant_joint_encoder (base_encoder 1)
           zeros21 zeros21); reflexivity.
Defined.






Lemma keeps_ret {A : Type} (a : A) : keeps_object (ret a).
Proof. intros s. reflexivity. Qed.

Lemma keeps_raise {A : Type} (e : exn) : keeps_object (@raise A e).
Proof. intros s. reflexivity. Qed.

Lemma keeps_lift {A : Type} (r : res A) : keeps_object (lift r).
Proof. intros s. reflexivity. Qed.

Lemma keeps_get_self : keeps_object get_self.
Proof. intros s. reflexivity. Qed.

Lemma keeps_getattr {A : Type} (name : string) (proj : GMC -> option A) :
  keeps_object (getattr name proj).
Proof. intros s. unfold getattr. destruct (proj (self s)); reflexivity. Qed.

Lemma keeps_call (c : callee) (f : Encoder.t) (arg : pyarg) :
  keeps_object (call c f arg).
Proof. intros s. reflexivity. Qed.

Lemma keeps_call_output (c : callee) (f : Encoder.t) (arg : pyarg) :
  keeps_object (call_output c f arg).
Proof. intros s. reflexivity. Qed.

Lemma keeps_bind {A B : Type} (c : M A) (k : A -> M B) :
  keeps_object c -> (forall a, keeps_object (k a)) -> keeps_object (bind c k).
Proof.
  intros Hc Hk s. unfold bind. specialize (Hc s).
  destruct (c s) as [[e | a] s'] eqn:E; cbn [snd] in *; [exact Hc|].
  now rewrite Hk.
Qed.

Ltac keeps_tac :=
  repeat first
    [ apply keeps_ret | apply keeps_raise | apply keeps_lift
    | apply keeps_get_self | apply keeps_getattr | apply keeps_call
    | apply keeps_call_output
    | apply keeps_bind; [|intros]
    | match goal with
      | |- keeps_object (if ?b then _ else _) => destruct b
      end ].

Lemma keeps_forward_loop inputs ms : forall acc,
  keeps_object (forward_loop inputs ms acc).
Proof.
  induction ms as [|m ms IH]; intros acc; cbn [forward_loop].
  - apply keeps_ret.
  - keeps_tac. apply IH.
Qed.

(** X15: [encode] and [forward] never modify the object: whatever the batch
    and the selector, whether they return or raise, and whatever the state
    of construction, every attribute is afterwards what it was before. *)
Theorem encode_and_forward_keep_the_object
  (inputs : MultimodalBaseDataset) (cond_mod : string) (s : State) :
  self (snd (encode inputs cond_mod s)) = self s
  /\ self (snd (forward inputs s)) = self s.
Proof.
  split.
  - assert (K : keeps_object (encode inputs cond_mod)).
    { unfold encode. keeps_tac. }
    apply K.
  - assert (K : keeps_object (forward inputs)).
    { unfold forward. apply keeps_bind; [apply keeps_forward_loop|].
      intros. keeps_tac. }
    apply K.
Qed.

(** X16: [set_joint_encoder] and [set_shared_encoder] change nothing when
    they raise: the encoder bound before, if any, is still bound; when they
    return, the one attribute they set is the only change. *)
Theorem encoder_setters_all_or_nothing (e : Encoder.t) (s : State) :
  (forall x, fst (set_joint_encoder e s) = Raise x ->
             snd (set_joint_encoder e s) = s)
  /\ (fst (set_joint_encoder e s) = Ok tt ->
      snd (set_joint_encoder e s)
      = {| self := with_joint_encoder (self s) e; calls := calls s |})
  /\ (forall x, fst (set_shared_encoder e s) = Raise x ->
                snd (set_shared_encoder e s) = s)
  /\ (fst (set_shared_encoder e s) = Ok tt ->
      snd (set_shared_encoder e s)
      = {| self := with_shared_encoder (self s) e; calls := calls s |}).
Proof.
  rewrite set_joint_encoder_spec, set_shared_encoder_spec.
  destruct (Encoder.isinstance_BaseJointEncoder e),
    (Encoder.isinstance_BaseEncoder e),
    (Encoder.latent_dim e =? common_dim (self s))%Z,
    (Encoder.latent_dim e =? latent_dim (self s))%Z;
    cbn [negb fst snd]; repeat split; intros; try reflexivity;
    discriminate.
Qed.

(** * The loss is symmetric in the two embeddings *)

Lemma denominator_first (temperature : R) (B D : nat) (X Y : matrix) i :
  has_shape B D X -> has_shape B D Y -> i < B ->
  sum_list (remove_nth i (nth i (sim_matrix temperature (X ++ Y)) []))
  = (sum_list (remove_nth i (map (similarity temperature (nth i X [])) X))
     + sum_list (map (similarity temperature (nth i X [])) Y))%R.
Proof.
  intros [HX _] [HY _] Hi.
  rewrite sim_matrix_row by (rewrite length_app; lia).
  rewrite app_nth1 by lia. rewrite map_app.
  fold (similarity temperature (nth i X [])).
  rewrite remove_nth_app_l by (rewrite length_map; lia).
  apply sum_list_app.
Qed.

Lemma denominator_second (temperature : R) (B D : nat) (X Y : matrix) i :
  has_shape B D X -> has_shape B D Y -> i < B ->
  sum_list (remove_nth (B + i)
              (nth (B + i) (sim_matrix temperature (X ++ Y)) []))
  = (sum_list (map (similarity temperature (nth i Y [])) X)
     + sum_list (remove_nth i (map (similarity temperature (nth i Y [])) Y)))%R.
Proof.
  intros [HX _] [HY _] Hi.
  rewrite sim_matrix_row by (rewrite length_app; lia).
  rewrite app_nth2 by lia. replace (B + i - length X) with i by lia.
  rewrite map_app.
  fold (similarity temperature (nth i Y [])).
  set (a := map (similarity temperature (nth i Y [])) X).
  assert (Ha : length a = B) by (unfold a; now rewrite length_map).
  rewrite <- Ha at 1. rewrite remove_nth_app_r.
  apply sum_list_app.
Qed.

Lemma loss_vector_swap (temperature : R) (B D : nat) (X Y : matrix) i :
  has_shape B D X -> has_shape B D Y -> i < B ->
  nth i (loss_vector temperature X Y) 0%R
  = nth (B + i) (loss_vector temperature Y X) 0%R.
Proof.
  intros HX HY Hi.
  rewrite (loss_vector_nth temperature B D X Y) by (assumption || lia).
  rewrite (loss_vector_nth temperature B D Y X) by (assumption || lia).
  rewrite (denominator_first temperature B D X Y) by assumption.
  rewrite (denominator_second temperature B D Y X) by assumption.
  destruct HX as [HX HXw], HY as [HY HYw].
  destruct (pos_sim_nth temperature X Y i) as [P1 _]; [lia | lia |].
  destruct (pos_sim_nth temperature Y X i) as [_ P2]; [lia | lia |].
  rewrite HY in P2. rewrite P1, P2.
  rewrite (dot_comm (nth i Y []) (nth i X [])).
  now rewrite Rplus_comm.
Qed.

Lemma loss_vector_sum_swap (temperature : R) (B D : nat) (X Y : matrix) :
  has_shape B D X -> has_shape B D Y ->
  sum_list (loss_vector temperature X Y)
  = sum_list (loss_vector temperature Y X).
Proof.
  intros HX HY.
  assert (L1 := loss_vector_length temperature B D X Y HX HY).
  assert (L2 := loss_vector_length temperature B D Y X HY HX).
  assert (F : firstn B (loss_vector temperature X Y)
              = skipn B (loss_vector temperature Y X)).
  { apply (nth_ext _ _ 0%R 0%R).
    - rewrite length_firstn, length_skipn. lia.
    - intros i Hi. rewrite length_firstn in Hi.
      rewrite nth_firstn, nth_skipn.
      destruct (Nat.ltb_spec i B); [|lia].
      now apply (loss_vector_swap temperature B D). }
  assert (G : skipn B (loss_vector temperature X Y)
              = firstn B (loss_vector temperature Y X)).
  { apply (nth_ext _ _ 0%R 0%R).
    - rewrite length_firstn, length_skipn. lia.
    - intros i Hi. rewrite length_skipn in Hi.
      rewrite nth_firstn, nth_skipn.
      destruct (Nat.ltb_spec i B); [|lia].
      symmetry. now apply (loss_vector_swap temperature B D). }
  rewrite <- (firstn_skipn B (loss_vector temperature X Y)), F, G.
  rewrite <- (firstn_skipn B (loss_vector temperature Y X)) at 3.
  rewrite !sum_list_app. lra.
Qed.

(** X17: the loss of one modality against the joint embedding is symmetric
    (exact arithmetic): exchanging the joint embedding and the modality's
    embedding does not change what [infonce] returns. *)
Theorem infonce_symmetric
  (temperature : R) (B D : nat) (k : string) (joint_z z : matrix) :
  1 <= B -> has_shape B D joint_z -> has_shape B D z ->
  infonce temperature [(k, z)] joint_z
  = infonce temperature [(k, joint_z)] z.
Proof.
  intros HB Hj Hz.
  rewrite (infonce_value temperature B D [(k, z)] joint_z);
    [| assumption | assumption | constructor; [exact Hz | constructor]
     | apply singleton_wf | discriminate].
  rewrite (infonce_value temperature B D [(k, joint_z)] z);
    [| assumption | assumption | constructor; [exact Hj | constructor]
     | apply singleton_wf | discriminate].
  unfold grand_sum. cbn [map snd].
  now rewrite (loss_vector_sum_swap temperature B D joint_z z).
Qed.

Lemma infonce_symmetric_witness :
  infonce 1 [("a", flip21)] unit21 = infonce 1 [("a", unit21)] flip21.
Proof.
  apply (infonce_symmetric 1 2 1 "a" unit21 flip21).
  - lia.
  - exact (proj1 unit_flip_shape).
  - exact (proj2 unit_flip_shape).
Defined.
